(** * webteam-hubot: the [meet] and [explain] scripts

    A shallow embedding of the two hubot scripts of the repository
    (the meet script and [scripts/explain.js]) and the properties of
    their specification.

    - JavaScript strings are modelled as [string]: sequences of code
      units below 256 (the Latin-1 range), which is where the
      whitespace and letter-case rules used by the scripts are written
      out below.  [toLocaleLowerCase] is taken in a locale without
      special casing rules, where it agrees with [toLowerCase].
    - A value that may be [undefined] (a spreadsheet cell, an
      environment variable, a field of a request body) is a [value].
    - A field of a parsed request body is a [jsvalue]: it may also be
      [null], a boolean, a number, an array or an object.  Numbers are
      IEEE 754 doubles, given by their exact rational value, and every
      operation on them rounds as the double operation does.
    - The asynchronous functions run in the monad [M]: they read the
      outside world (the backend and what it serves, [Math.random]),
      record every call that leaves the script in a trace, and may
      throw (a [TypeError], or the error of a rejected backend call). *)

From Stdlib Require Import String Ascii List Bool Arith ZArith QArith Qround Qabs Lia FinFun.
From Stdlib Require Import DecimalString.
Import ListNotations.
Local Close Scope Q_scope.
Local Open Scope list_scope.
Local Open Scope string_scope.
Local Open Scope nat_scope.

(* ===================================================================== *)
(** ** JavaScript primitives used by the scripts *)
(* ===================================================================== *)

(** Completion of a function: a returned value or a thrown error (the
    [TypeError] of reading a property of [undefined], of calling what
    is not a function, or the error of a rejected backend call). *)
Inductive result (A : Type) : Type :=
| Ok : A -> result A
| Throw : string -> result A.
Arguments Ok {A} _.
Arguments Throw {A} _.

Module JS.

(** A JavaScript value that is a string or [undefined]. *)
Inductive value : Type :=
| VUndef : value
| VStr : string -> value.

(** [!v]: [undefined] and the empty string are the falsy values here;
    every other string, ["0"] included, is truthy. *)
Definition truthy (v : value) : bool :=
  match v with
  | VUndef => false
  | VStr EmptyString => false
  | VStr (String _ _) => true
  end.

Definition falsy (v : value) : bool := negb (truthy v).

(** [v || ""] on a string-or-undefined value. *)
Definition orEmpty (v : value) : string :=
  match v with
  | VUndef => EmptyString
  | VStr s => s
  end.

Definition code (c : ascii) : nat := nat_of_ascii c.

(** WhiteSpace and LineTerminator code units below 256:
    TAB, LF, VT, FF, CR, SP and NBSP. *)
Definition isWhiteSpace (c : ascii) : bool :=
  let n := code c in
  ((9 <=? n) && (n <=? 13)) || (n =? 32) || (n =? 160).

(** The class [[\r\n]]. *)
Definition isLineBreak (c : ascii) : bool :=
  let n := code c in (n =? 13) || (n =? 10).

(** Lower-casing of one code unit: A-Z, and the Latin-1 capitals
    U+00C0..U+00DE without the multiplication sign U+00D7. *)
Definition toLowerChar (c : ascii) : ascii :=
  let n := code c in
  if ((65 <=? n) && (n <=? 90))
     || ((192 <=? n) && (n <=? 222) && negb (n =? 215))
  then ascii_of_nat (n + 32)
  else c.

Fixpoint toLowerCase (s : string) : string :=
  match s with
  | EmptyString => EmptyString
  | String c t => String (toLowerChar c) (toLowerCase t)
  end.

Fixpoint trimStart (s : string) : string :=
  match s with
  | EmptyString => EmptyString
  | String c t => if isWhiteSpace c then trimStart t else s
  end.

Fixpoint trimEnd (s : string) : string :=
  match s with
  | EmptyString => EmptyString
  | String c t =>
      match trimEnd t with
      | EmptyString => if isWhiteSpace c then EmptyString else String c EmptyString
      | String _ _ as t' => String c t'
      end
  end.

Definition trim (s : string) : string := trimEnd (trimStart s).

(** [s.replace(/[cls]/, "")] without the [g] flag: the first code unit
    of the class is removed, the rest is left as it is. *)
Fixpoint removeFirst (cls : ascii -> bool) (s : string) : string :=
  match s with
  | EmptyString => EmptyString
  | String c t => if cls c then t else String c (removeFirst cls t)
  end.

(** [s.replace(/[cls]/g, "")]: every code unit of the class is removed. *)
Fixpoint removeAll (cls : ascii -> bool) (s : string) : string :=
  match s with
  | EmptyString => EmptyString
  | String c t => if cls c then removeAll cls t else String c (removeAll cls t)
  end.

(** [s.replace(/a/g, "b")] for single code units [a] and [b]. *)
Fixpoint replaceAll (a b : ascii) (s : string) : string :=
  match s with
  | EmptyString => EmptyString
  | String c t => String (if Ascii.eqb c a then b else c) (replaceAll a b t)
  end.

(** [s.slice(0, n)]. *)
Fixpoint slice0 (n : nat) (s : string) : string :=
  match n, s with
  | S m, String c t => String c (slice0 m t)
  | _, _ => EmptyString
  end.

(** [s.split(sep)] for a one-unit separator; the empty string splits
    into one empty token. *)
Fixpoint split (sep : ascii) (s : string) : list string :=
  match s with
  | EmptyString => [EmptyString]
  | String c t =>
      if Ascii.eqb c sep then EmptyString :: split sep t
      else match split sep t with
           | [] => [String c EmptyString]
           | tok :: toks => String c tok :: toks
           end
  end.

(** [xs.join(sep)]. *)
Fixpoint join (sep : string) (xs : list string) : string :=
  match xs with
  | [] => EmptyString
  | [x] => x
  | x :: rest => x ++ sep ++ join sep rest
  end.

(** [xs.find(p)] on an array of strings: the first element that
    satisfies [p], or [undefined]. *)
Definition arrayFind (p : string -> bool) (xs : list string) : value :=
  match find p xs with
  | Some x => VStr x
  | None => VUndef
  end.

Definition LF : string := String (ascii_of_nat 10) EmptyString.
Definition CR : string := String (ascii_of_nat 13) EmptyString.

End JS.

Import JS.

(* ===================================================================== *)
(** ** Numbers *)
(* ===================================================================== *)

Module Number.

Local Open Scope Z_scope.

(** A Number: [NaN], an infinity with its sign, or a finite double
    given by its exact value.  The two zeros are not told apart; no
    operation of the scripts distinguishes them. *)
Inductive number : Type :=
| NaN : number
| Infinity : bool -> number
| Finite : Q -> number.

(** The double nearest to [a / b > 0], ties to even.  The value is
    counted in units of [2 ^ -1074], the spacing of the smallest
    doubles; [s] low bits are dropped so that 53 significant bits
    remain, and a result of [2 ^ 1024] or more is infinite. *)
Definition roundPos (a : Z) (b : positive) : number :=
  let A := a * 2 ^ 1074 in
  let s := Z.max (Z.log2 (A / Z.pos b) - 52) 0 in
  let den := Z.pos b * 2 ^ s in
  let q := A / den in
  let r := A mod den in
  let q' := if (den <? 2 * r) || ((den =? 2 * r) && Z.odd q) then q + 1 else q in
  if 2 ^ 2098 <=? q' * 2 ^ s then Infinity false
  else Finite (Qmake (q' * 2 ^ s) (2 ^ 1074)).

Definition negate (x : number) : number :=
  match x with
  | NaN => NaN
  | Infinity s => Infinity (negb s)
  | Finite q => Finite (Qopp q)
  end.

(** The double that a real result [x] is rounded to. *)
Definition roundDouble (x : Q) : number :=
  match Qnum x with
  | Z0 => Finite 0
  | Zpos _ => roundPos (Qnum x) (Qden x)
  | Zneg p => negate (roundPos (Zpos p) (Qden x))
  end.

(** [x == y] on Numbers. *)
Definition numEq (x y : number) : bool :=
  match x, y with
  | Finite p, Finite q => Qeq_bool p q
  | Infinity s, Infinity t => Bool.eqb s t
  | _, _ => false
  end.

(** [0], [-0] and [NaN] are the falsy Numbers. *)
Definition isZeroOrNaN (x : number) : bool :=
  match x with
  | NaN => true
  | Infinity _ => false
  | Finite q => Qeq_bool q 0
  end.

Definition pow10 (t : Z) : Q :=
  if 0 <=? t then inject_Z (10 ^ t) else Qmake 1 (Z.to_pos (10 ^ (- t))).

(** *** StringToNumber *)

Definition digitVal (base : Z) (c : ascii) : option Z :=
  let n := Z.of_nat (nat_of_ascii c) in
  let v := if (48 <=? n) && (n <=? 57) then n - 48
           else if (97 <=? n) && (n <=? 102) then n - 87
           else if (65 <=? n) && (n <=? 70) then n - 55
           else 99 in
  if v <? base then Some v else None.

(** The longest prefix of digits: its value after [acc], the number of
    digits read, and the rest. *)
Fixpoint readDigits (base : Z) (s : string) (acc : Z) (count : Z) : Z * Z * string :=
  match s with
  | EmptyString => (acc, count, s)
  | String c t =>
      match digitVal base c with
      | Some v => readDigits base t (acc * base + v) (count + 1)
      | None => (acc, count, s)
      end
  end.

Definition isE (c : ascii) : bool := Ascii.eqb c "e" || Ascii.eqb c "E".

(** An optional exponent part up to the end of the literal. *)
Definition readExponent (s : string) : option Z :=
  match s with
  | EmptyString => Some 0
  | String c t =>
      if isE c then
        let '(negative, digits) :=
          match t with
          | String "+" u => (false, u)
          | String "-" u => (true, u)
          | _ => (false, t)
          end in
        match readDigits 10 digits 0 0 with
        | (v, n, EmptyString) =>
            if 0 <? n then Some (if negative then - v else v) else None
        | _ => None
        end
      else None
  end.

(** StrUnsignedDecimalLiteral: [Infinity], or digits with an optional
    fraction and exponent, at least one digit before the exponent. *)
Definition readUnsignedDecimal (s : string) : option number :=
  if String.eqb s "Infinity" then Some (Infinity false) else
  let '(ip, n1, rest1) := readDigits 10 s 0 0 in
  match rest1 with
  | String "." rest2 =>
      let '(mant, n2, rest3) := readDigits 10 rest2 ip 0 in
      if (n1 =? 0) && (n2 =? 0) then None
      else match readExponent rest3 with
           | Some e => Some (roundDouble (Qmult (inject_Z mant) (pow10 (e - n2))))
           | None => None
           end
  | _ =>
      if n1 =? 0 then None
      else match readExponent rest1 with
           | Some e => Some (roundDouble (Qmult (inject_Z ip) (pow10 e)))
           | None => None
           end
  end.

Definition readRadix (base : Z) (digits : string) : number :=
  match readDigits base digits 0 0 with
  | (v, n, EmptyString) => if 0 <? n then roundDouble (inject_Z v) else NaN
  | _ => NaN
  end.

Definition orNaN (x : option number) : number :=
  match x with
  | Some n => n
  | None => NaN
  end.

(** ToNumber of a string: surrounding whitespace is dropped, the empty
    literal is [0], a literal outside the grammar is [NaN]. *)
Definition StringToNumber (s : string) : number :=
  match trim s with
  | EmptyString => Finite 0
  | String "0" (String "x" d) | String "0" (String "X" d) => readRadix 16 d
  | String "0" (String "o" d) | String "0" (String "O" d) => readRadix 8 d
  | String "0" (String "b" d) | String "0" (String "B" d) => readRadix 2 d
  | String "+" u => orNaN (readUnsignedDecimal u)
  | String "-" u => negate (orNaN (readUnsignedDecimal u))
  | u => orNaN (readUnsignedDecimal u)
  end.

(** *** Number::toString *)

Definition decimal (z : Z) : string :=
  NilZero.string_of_uint (N.to_uint (Z.to_N z)).

Fixpoint zeros (n : nat) : string :=
  match n with
  | O => EmptyString
  | S m => String "0" (zeros m)
  end.

Fixpoint scaleUp (fuel : nat) (a b : Z) (c : Z) : Z :=
  match fuel with
  | O => c
  | S f => if b <=? a * 10 ^ c then c else scaleUp f a b (c + 1)
  end.

(** The [n] with [10 ^ (n - 1) <= a / b < 10 ^ n], for a positive double. *)
Definition decimalExponent (a b : Z) : Z :=
  if b <=? a then Z.of_nat (String.length (decimal (a / b)))
  else 1 - scaleUp 400 a b 1.

(** The pairs [(n, s)] with [s] of [k] digits for which
    [s * 10 ^ (n - k)] is read back as [x]. *)
Definition candidates (x : Q) (k n : Z) : list (Z * Z) :=
  let t := n - k in
  let lo := Qfloor (Qdiv x (pow10 t)) in
  filter
    (fun ns =>
       let s := snd ns in
       (10 ^ (k - 1) <=? s) && (s <? 10 ^ k)
       && numEq (roundDouble (Qmult (inject_Z s) (pow10 t))) (Finite x))
    [(n, lo); (n, lo + 1)].

Definition distance (x : Q) (k : Z) (ns : Z * Z) : Q :=
  Qabs (Qminus (Qmult (inject_Z (snd ns)) (pow10 (fst ns - k))) x).

Definition better (x : Q) (k : Z) (c d : Z * Z) : Z * Z :=
  match Qcompare (distance x k c) (distance x k d) with
  | Lt => c
  | Gt => d
  | Eq => if Z.even (snd c) then c else d
  end.

(** The shortest digits: the least [k], and for it the pair nearest
    to [x]. *)
Fixpoint shortest (fuel : nat) (x : Q) (n0 : Z) (k : Z) : Z * Z * Z :=
  match fuel with
  | O => (k, n0, 0)
  | S f =>
      match (candidates x k (n0 - 1) ++ candidates x k n0
             ++ candidates x k (n0 + 1))%list with
      | [] => shortest f x n0 (k + 1)
      | c :: cs => let '(n, s) := fold_left (better x k) cs c in (k, n, s)
      end
  end.

Definition formatDigits (k n s : Z) : string :=
  let digits := decimal s in
  if (k <=? n) && (n <=? 21) then digits ++ zeros (Z.to_nat (n - k))
  else if (0 <? n) && (n <=? 21) then
    substring 0 (Z.to_nat n) digits ++ "."
    ++ substring (Z.to_nat n) (Z.to_nat (k - n)) digits
  else if (-6 <? n) && (n <=? 0) then "0." ++ zeros (Z.to_nat (- n)) ++ digits
  else
    let e := n - 1 in
    let exponent := (if e <? 0 then "-" else "+") ++ decimal (Z.abs e) in
    if k =? 1 then digits ++ "e" ++ exponent
    else substring 0 1 digits ++ "." ++ substring 1 (Z.to_nat (k - 1)) digits
         ++ "e" ++ exponent.

Definition positiveToString (x : Q) : string :=
  let n0 := decimalExponent (Qnum x) (Z.pos (Qden x)) in
  let '(k, n, s) := shortest 17 x n0 1 in
  formatDigits k n s.

(** ToString of a Number. *)
Definition NumberToString (x : number) : string :=
  match x with
  | NaN => "NaN"
  | Infinity false => "Infinity"
  | Infinity true => "-Infinity"
  | Finite q =>
      match Qnum q with
      | Z0 => "0"
      | Zpos _ => positiveToString q
      | Zneg _ => "-" ++ positiveToString (Qopp q)
      end
  end.

End Number.

Import Number.

(* ===================================================================== *)
(** ** Values of a parsed request body *)
(* ===================================================================== *)

Module Values.

(** What the body parsers hand over for a field: a string or
    [undefined] (a [value]), or [null], a boolean, a number, an array
    or an object with its own properties.  An object that comes out of
    a parser holds no function. *)
#[warnings="-register-all"]
Inductive jsvalue : Type :=
| OfValue : value -> jsvalue
| JNull : jsvalue
| JBool : bool -> jsvalue
| JNum : number -> jsvalue
| JArr : list jsvalue -> jsvalue
| JObj : list (string * jsvalue) -> jsvalue.

Coercion OfValue : value >-> jsvalue.

(** ToBoolean. *)
Definition isTruthy (v : jsvalue) : bool :=
  match v with
  | OfValue u => truthy u
  | JNull => false
  | JBool b => b
  | JNum x => negb (isZeroOrNaN x)
  | JArr _ => true
  | JObj _ => true
  end.

Definition hasOwn (key : string) (fields : list (string * jsvalue)) : bool :=
  existsb (fun kv => String.eqb (fst kv) key) fields.

Definition notPrimitive : string :=
  "TypeError: Cannot convert object to primitive value".

(** ToString.  An array is the [join] of its elements with commas, an
    element that is [undefined] or [null] giving the empty string; an
    object is ["[object Object]"], unless an own property [toString]
    hides the inherited method: that property is no function, and no
    primitive can be had. *)
Fixpoint toStringV (v : jsvalue) : result string :=
  match v with
  | OfValue VUndef => Ok "undefined"
  | OfValue (VStr s) => Ok s
  | JNull => Ok "null"
  | JBool b => Ok (if b then "true" else "false")
  | JNum x => Ok (NumberToString x)
  | JArr items =>
      (fix joinItems (l : list jsvalue) : result string :=
         match l with
         | [] => Ok EmptyString
         | x :: rest =>
             match (match x with
                    | OfValue VUndef => Ok EmptyString
                    | JNull => Ok EmptyString
                    | _ => toStringV x
                    end) with
             | Throw e => Throw e
             | Ok a =>
                 match rest with
                 | [] => Ok a
                 | _ :: _ =>
                     match joinItems rest with
                     | Throw e => Throw e
                     | Ok b => Ok (a ++ "," ++ b)
                     end
                 end
             end
         end) items
  | JObj fields =>
      if hasOwn "toString" fields then Throw notPrimitive
      else Ok "[object Object]"
  end.

(** [secret == v] for a [secret] that is a string or [undefined]: the
    loose comparison, which converts its operands.  [undefined] equals
    [undefined] and [null] only; a string is compared with a number or
    a boolean as a Number, and with an array or an object through the
    primitive of that object, which may throw. *)
Definition looseEq (secret : value) (v : jsvalue) : result bool :=
  match secret with
  | VUndef =>
      Ok (match v with
          | OfValue VUndef => true
          | JNull => true
          | _ => false
          end)
  | VStr s =>
      match v with
      | OfValue (VStr t) => Ok (String.eqb s t)
      | OfValue VUndef => Ok false
      | JNull => Ok false
      | JNum x => Ok (numEq (StringToNumber s) x)
      | JBool b => Ok (numEq (StringToNumber s) (Finite (if b then 1 else 0)))
      | JArr _ => match toStringV v with
                  | Ok p => Ok (String.eqb s p)
                  | Throw e => Throw e
                  end
      | JObj _ => match toStringV v with
                  | Ok p => Ok (String.eqb s p)
                  | Throw e => Throw e
                  end
      end
  end.

(** Calling the method [what] of a truthy value that is no string: it
    has no such method. *)
Definition notAFunction (what : string) : string :=
  "TypeError: " ++ what ++ " is not a function".

End Values.

Import Values.

(* ===================================================================== *)
(** ** Regular expressions: the fragment the scripts use *)
(* ===================================================================== *)

Module RegExp.

(** Patterns built from single code units, concatenation, alternation
    and the star; [r?] is [Alt r Eps]. *)
Inductive regex : Type :=
| Void : regex
| Eps : regex
| Lit : ascii -> regex
| Cat : regex -> regex -> regex
| Alt : regex -> regex -> regex
| Star : regex -> regex.

Definition Opt (r : regex) : regex := Alt r Eps.

(** One code unit against a pattern character; under the flag [i] the
    two are compared after case folding, which on code units below 256
    identifies exactly the pairs [toLowerChar] identifies. *)
Definition charMatch (ignoreCase : bool) (c d : ascii) : bool :=
  if ignoreCase then Ascii.eqb (toLowerChar d) (toLowerChar c)
  else Ascii.eqb d c.

Fixpoint nullable (r : regex) : bool :=
  match r with
  | Void => false
  | Eps => true
  | Lit _ => false
  | Cat r1 r2 => nullable r1 && nullable r2
  | Alt r1 r2 => nullable r1 || nullable r2
  | Star _ => true
  end.

Definition cat (r1 r2 : regex) : regex :=
  match r1, r2 with
  | Void, _ => Void
  | _, Void => Void
  | Eps, _ => r2
  | _, Eps => r1
  | _, _ => Cat r1 r2
  end.

Definition alt (r1 r2 : regex) : regex :=
  match r1, r2 with
  | Void, _ => r2
  | _, Void => r1
  | _, _ => Alt r1 r2
  end.

(** The pattern left to match after the code unit [d] has been read. *)
Fixpoint deriv (ignoreCase : bool) (d : ascii) (r : regex) : regex :=
  match r with
  | Void => Void
  | Eps => Void
  | Lit c => if charMatch ignoreCase c d then Eps else Void
  | Cat r1 r2 =>
      if nullable r1
      then alt (cat (deriv ignoreCase d r1) r2) (deriv ignoreCase d r2)
      else cat (deriv ignoreCase d r1) r2
  | Alt r1 r2 => alt (deriv ignoreCase d r1) (deriv ignoreCase d r2)
  | Star r1 => cat (deriv ignoreCase d r1) (Star r1)
  end.

(** [s.match(/^r$/)] is not [null]: the whole of [s] is in the language
    of [r].  With the anchors and without the flag [m] the flag [g]
    does not change whether there is a match. *)
Fixpoint matchWhole (ignoreCase : bool) (r : regex) (s : string) : bool :=
  match s with
  | EmptyString => nullable r
  | String d t => matchWhole ignoreCase (deriv ignoreCase d r) t
  end.

End RegExp.

Import RegExp.

(* ===================================================================== *)
(** ** Outside world, effects and HTTP *)
(* ===================================================================== *)

(** One row of the sheet [Explain]; a cell the sheet leaves out reads as
    [undefined].  The column [Definition] is the field [Definition_]. *)
Record Row : Type := mkRow {
  Explain : value;
  Alias : value;
  Definition_ : value;
  PM : value;
  Team : value;
  Contact : value;
  Link : value
}.

(** One row of the sheet [Why]: the index the backing store gives the
    row, and its [why] cell. *)
Record WhyRow : Type := mkWhyRow {
  rowIndex : Z;
  why : value
}.

(** What the outside holds for one call of a handler: the rows of the
    two sheets and the number [Math.random()] hands out (a double of
    [0, 1), by its exact value).  A list of rows stands for an array,
    which has fewer than [2 ^ 32] elements. *)
Record World : Type := mkWorld {
  whySheet : list WhyRow;
  explainSheet : list Row;
  mathRandom : Q
}.

(** How the backend treats a sheet of the document: the document has no
    sheet of that title ([doc.sheetsByTitle] gives [undefined]), the
    request for its rows is rejected with an error, or it is answered. *)
Inductive SheetState : Type :=
| SheetMissing : SheetState
| SheetRejects : string -> SheetState
| SheetAnswers : SheetState.

(** How the backend treats the calls of one run: the error with which
    [useServiceAccountAuth] and [loadInfo] are rejected, if they are,
    and the state of the two sheets. *)
Record Backend : Type := mkBackend {
  authError : option string;
  loadInfoError : option string;
  whyState : SheetState;
  explainState : SheetState
}.

(** The backend that answers every call. *)
Definition answers : Backend :=
  mkBackend None None SheetAnswers SheetAnswers.

(** The outside of one call: the backend and what there is to serve. *)
Record Outside : Type := mkOutside {
  backend : Backend;
  world : World
}.

(** A [World] read as an [Outside] is that world behind a backend that
    answers every call: a statement about a call in a world [w] is
    about the call whose backend requests are all answered, with the
    rows and the number of [w]. *)
Definition answering (w : World) : Outside := mkOutside answers w.

Coercion answering : World >-> Outside.

(** Calls that leave the script. *)
Inductive Event : Type :=
| EvAuth : Event                      (* doc.useServiceAccountAuth(creds) *)
| EvLoadInfo : Event                  (* doc.loadInfo() *)
| EvGetRows : string -> Event         (* sheet.getRows() of the named sheet *)
| EvRandom : Event                    (* Math.random() *)
| EvLog : string -> Event.            (* robot.logger.info(msg) *)

Definition M (A : Type) : Type := Outside -> list Event * result A.

Definition ret {A} (a : A) : M A := fun _ => ([], Ok a).

Definition bind {A B} (m : M A) (k : A -> M B) : M B :=
  fun w =>
    match m w with
    | (t, Ok a) => let (t', r) := k a w in ((t ++ t')%list, r)
    | (t, Throw e) => (t, Throw e)
    end.

Definition throw {A} (e : string) : M A := fun _ => ([], Throw e).

Definition emit (e : Event) : M unit := fun _ => ([e], Ok tt).

Definition ask : M Outside := fun w => ([], Ok w).

Definition lift {A} (r : result A) : M A := fun _ => ([], r).

Notation "x <- m ;; k" := (bind m (fun x => k))
  (at level 61, m at next level, right associativity).
Notation "m ;;; k" := (bind m (fun _ => k))
  (at level 61, right associativity).

(** An awaited call that the backend may reject. *)
Definition awaited (e : Event) (error : Backend -> option string) : M unit :=
  emit e ;;;
  o <- ask ;;
  match error (backend o) with
  | Some err => throw err
  | None => ret tt
  end.

Definition useServiceAccountAuth : M unit := awaited EvAuth authError.
Definition loadInfo : M unit := awaited EvLoadInfo loadInfoError.

Definition noSheet : string :=
  "TypeError: Cannot read properties of undefined (reading 'getRows')".

(** [await doc.sheetsByTitle[title].getRows()]. *)
Definition getRows {A} (title : string) (state : Backend -> SheetState)
    (rows : World -> list A) : M (list A) :=
  o <- ask ;;
  match state (backend o) with
  | SheetMissing => throw noSheet
  | SheetRejects err => emit (EvGetRows title) ;;; throw err
  | SheetAnswers => emit (EvGetRows title) ;;; ret (rows (world o))
  end.

Definition getWhyRows : M (list WhyRow) := getRows "Why" whyState whySheet.
Definition getExplainRows : M (list Row) :=
  getRows "Explain" explainState explainSheet.
Definition random : M Q :=
  emit EvRandom ;;; o <- ask ;; ret (mathRandom (world o)).
Definition loggerInfo (msg : string) : M unit := emit (EvLog msg).

(** The body of a slash-command request, as the body parsers leave it:
    a field that is absent reads as [undefined]. *)
Record Body : Type := mkBody {
  token : jsvalue;
  text : jsvalue
}.

(** A response body: plain text, or a JSON object given by its fields
    (a field whose value is [undefined] is dropped on the wire). *)
Inductive Payload : Type :=
| Plain : string -> Payload
| Json : list (string * value) -> Payload.

Record Response : Type := mkResponse {
  status : nat;
  payload : Payload
}.

(** [process.env]: absent variables read as [undefined]. *)
Definition Env : Type := string -> value.

(** How loading a script ends: the process is stopped with a
    diagnostic, or the script has written some lines to the console and
    hubot registers the handlers it exports. *)
Inductive Startup : Type :=
| Aborted : string -> Startup
| Registered : list string -> list string -> Startup.

Module Utils.

(** Modelled from the spec: [requiredEnvs] of [./utils], which
    [scripts/explain.js] requires and which is not among the sources.
    The specification says that missing required configuration must
    abort startup with a diagnostic: the function throws as soon as one
    of the variables handed to it has no value, and the diagnostic
    names the variables concerned.  Having no value is read as in the
    test of the meet script, which reports a variable as missing when
    it is falsy. *)
Definition requiredEnvs (envs : list (string * value)) : result unit :=
  match filter (fun kv => falsy (snd kv)) envs with
  | [] => Ok tt
  | missing => Throw ("Missing " ++ join ", " (map fst missing) ++ " in environment")
  end.

End Utils.

(* ===================================================================== *)
(** ** The meet script *)
(* ===================================================================== *)

Module Meet.

(** Loading the script: the test of [MATTERMOST_TOKEN_CMD_MEET] at the
    top of the file only writes to the console. *)
Definition startup (env : Env) : Startup :=
  let MATTERMOST_TOKEN_CMD_MEET := env "MATTERMOST_TOKEN_CMD_MEET" in
  let console :=
    if falsy MATTERMOST_TOKEN_CMD_MEET
    then ["Missing MATTERMOST_TOKEN_CMD_MEET in environment"]
    else [] in
  Registered console ["respond meet"; "POST /hubot/meet"].

Definition isAt (c : ascii) : bool := Ascii.eqb c "@".

Definition meetCode (participants : string) : string :=
  slice0 59 (replaceAll " " "-" (removeAll isAt participants)).

Definition generateMeetLink (participants : string) : M string :=
  let participantsList := participants in
  let code := meetCode participants in
  ret ("Your Meet is ready: https://g.co/meet/" ++ code ++ " " ++ participantsList).

Definition helpText : string :=
  "Create a new Meet and post the link to the current channel, format: `/meet @{username} [@{username} ...]`".

Definition iconUrl : string :=
  "https://assets.ubuntu.com/v1/fa583301-meet-bot-logo.png".

(** [robot.router.post("/hubot/meet", ...)], with the value of the
    environment variable [MATTERMOST_TOKEN_CMD_MEET]. *)
Definition post (MATTERMOST_TOKEN_CMD_MEET : value) (body : Body) : M Response :=
  equal <- lift (looseEq MATTERMOST_TOKEN_CMD_MEET (token body)) ;;
  if negb equal then
    ret (mkResponse 401 (Plain "Unauthorized"))
  else
    result <-
      (if isTruthy (text body) then
         match text body with
         | OfValue (VStr t) =>
             if negb (String.eqb (trim t) "help") then
               loggerInfo ("Meet participants: " ++ t) ;;;
               generateMeetLink t
             else ret helpText
         | _ => throw (notAFunction "req.body.text.trim")
         end
       else ret helpText) ;;
    ret (mkResponse 200
           (Json [("response_type", VStr "in_channel");
                  ("icon_url", VStr iconUrl);
                  ("text", VStr result)])).

End Meet.

(* ===================================================================== *)
(** ** scripts/explain.js *)
(* ===================================================================== *)

Module Explain.

Definition usage : string :=
  "Format: `/explain <concept>` eg. `/explain MAAS`. Add your own [here](https://docs.google.com/spreadsheets/d/1nNk4typDnOfDEYRzlEjtd58zk-aOd3_NNp6eufthZHM/edit#gid=2064544629)".

Definition rbind {A B} (r : result A) (k : A -> result B) : result B :=
  match r with
  | Ok a => k a
  | Throw e => Throw e
  end.

Fixpoint rmap {A B} (f : A -> result B) (xs : list A) : result (list B) :=
  match xs with
  | [] => Ok []
  | x :: rest =>
      rbind (f x) (fun y => rbind (rmap f rest) (fun ys => Ok (y :: ys)))
  end.

Definition notAString (prop : string) : string :=
  "TypeError: Cannot read properties of undefined (reading '" ++ prop ++ "')".

(** [value.replace(/[\r\n]/, "").trim()]. *)
Definition sanitizeValue (value : value) : result string :=
  match value with
  | VStr s => Ok (trim (removeFirst isLineBreak s))
  | VUndef => Throw (notAString "replace")
  end.

(** [!value || value.toLocaleLowerCase().trim() === "n/a"]. *)
Definition valueIsEmpty (value : value) : bool :=
  falsy value || String.eqb (trim (toLowerCase (orEmpty value))) "n/a".

Definition tableHeader : string :=
  "| Title | Description |" ++ LF ++ "|--|--|" ++ LF.

(** The array [rows] of [formatRowToMDTable] after the pushes. *)
Definition tableRows (row : Row) : list (value * value) :=
  let rows := [(Explain row, Definition_ row)] in
  let rows := if negb (valueIsEmpty (PM row))
              then (rows ++ [(VStr "PM", PM row)])%list else rows in
  let rows := if negb (valueIsEmpty (Team row))
              then (rows ++ [(VStr "Team", Team row)])%list else rows in
  let rows := if negb (valueIsEmpty (Contact row))
              then (rows ++ [(VStr "Contact channel", Contact row)])%list else rows in
  let rows := if negb (valueIsEmpty (Link row))
              then (rows ++ [(VStr "Read more", Link row)])%list else rows in
  rows.

Definition tableLine (row : value * value) : result string :=
  rbind (sanitizeValue (fst row)) (fun a =>
  rbind (sanitizeValue (snd row)) (fun b =>
  Ok ("| " ++ a ++ " | " ++ b ++ " |"))).

Definition formatRowToMDTable (row : Row) : result string :=
  let mdTable := tableHeader in
  rbind (rmap tableLine (tableRows row)) (fun lines =>
  Ok (mdTable ++ join LF lines)).

(** The callback of [rows.find] in [fetchExplanation]; the value of
    [a || b] is used as a condition, so a keyword found by the inner
    [find] counts only if it is a truthy string. *)
Definition rowMatches (explainQuery : string) (row : Row) : bool :=
  let searchQuery := trim (toLowerCase explainQuery) in
  let explain := orEmpty (Explain row) in
  let alias := orEmpty (Alias row) in
  String.eqb (trim (toLowerCase explain)) searchQuery
  || truthy
       (arrayFind (fun keyword => String.eqb keyword searchQuery)
          (map (fun e => toLowerCase (trim e))
             (split "," (trim (toLowerCase alias))))).

(** [parseInt(Math.floor(r * (n + 1)))], for the number [r] that
    [Math.random()] returned and [n] rows: the product is rounded to a
    double and then floored.  [parseInt] gives back the integers below
    [10 ^ 21], which is more than an array can have elements, and makes
    what is not finite [NaN], here [None]. *)
Definition randomIndex (r : Q) (n : nat) : option Z :=
  match roundDouble (r * inject_Z (Z.of_nat n + 1)) with
  | Finite q => Some (Qfloor q)
  | _ => None
  end.

(** [rowIndex == randomRowIndex]; [NaN] equals nothing. *)
Definition sameIndex (randomRowIndex : option Z) (row : WhyRow) : bool :=
  match randomRowIndex with
  | Some i => Z.eqb (rowIndex row) i
  | None => false
  end.

Definition fetchExplanation (explainQuery : string) : M value :=
  useServiceAccountAuth ;;;
  loadInfo ;;;
  if String.eqb (trim (toLowerCase explainQuery)) "why" then
    rows <- getWhyRows ;;
    r <- random ;;
    let randomRowIndex := randomIndex r (List.length rows) in
    match find (sameIndex randomRowIndex) rows with
    | Some whyRandomRow => ret (why whyRandomRow)
    | None => throw (notAString "why")
    end
  else
    rows <- getExplainRows ;;
    match find (rowMatches explainQuery) rows with
    | None => ret (VStr usage)
    | Some row => s <- lift (formatRowToMDTable row) ;; ret (VStr s)
    end.

(** [/^(-)*h(elp)?$/gi]. *)
Definition helpPattern : regex :=
  Cat (Star (Lit "-"))
      (Cat (Lit "h") (Opt (Cat (Lit "e") (Cat (Lit "l") (Lit "p"))))).

(** The chat responder registered for [explain <text>]: what is sent
    to the channel. *)
Definition respond (explainQuery : string) : M value :=
  fetchExplanation explainQuery.

(** [robot.router.post("/hubot/explain", ...)], with the value of the
    environment variable [MATTERMOST_TOKEN_CMD_EXPLAIN]. *)
Definition post (MATTERMOST_TOKEN_CMD_EXPLAIN : value) (body : Body) : M Response :=
  equal <- lift (looseEq MATTERMOST_TOKEN_CMD_EXPLAIN (token body)) ;;
  if negb equal then
    ret (mkResponse 401 (Json [("error", VStr "Unauthorized")]))
  else
    let explainQuery := text body in
    let usageResponse :=
      mkResponse 200
        (Json [("response_type", VStr "ephemeral"); ("text", VStr usage)]) in
    if negb (isTruthy explainQuery) then ret usageResponse
    else
      match explainQuery with
      | OfValue (VStr q) =>
          if matchWhole true helpPattern (trim q) then ret usageResponse
          else
            loggerInfo (": " ++ q) ;;;
            result <- fetchExplanation q ;;
            ret (mkResponse 200
                   (Json [("response_type", VStr "ephemeral"); ("text", result)]))
      | _ => throw (notAFunction "explainQuery.trim")
      end.

(** Loading the script: [requiredEnvs] runs first, on the four
    variables the script reads. *)
Definition startup (env : Env) : Startup :=
  let HUBOT_SPREADSHEET_ID := env "HUBOT_SPREADSHEET_ID" in
  let HUBOT_SPREADSHEET_CLIENT_EMAIL := env "HUBOT_SPREADSHEET_CLIENT_EMAIL" in
  let HUBOT_SPREADSHEET_PRIVATE_KEY := env "HUBOT_SPREADSHEET_PRIVATE_KEY" in
  let MATTERMOST_TOKEN_CMD_EXPLAIN := env "MATTERMOST_TOKEN_CMD_EXPLAIN" in
  match Utils.requiredEnvs
          [("HUBOT_SPREADSHEET_ID", HUBOT_SPREADSHEET_ID);
           ("HUBOT_SPREADSHEET_CLIENT_EMAIL", HUBOT_SPREADSHEET_CLIENT_EMAIL);
           ("HUBOT_SPREADSHEET_PRIVATE_KEY", HUBOT_SPREADSHEET_PRIVATE_KEY);
           ("MATTERMOST_TOKEN_CMD_EXPLAIN", MATTERMOST_TOKEN_CMD_EXPLAIN)] with
  | Throw diagnostic => Aborted diagnostic
  | Ok _ => Registered [] ["respond explain"; "POST /hubot/explain"]
  end.

End Explain.

(* ===================================================================== *)
(** ** The specification's vocabulary *)
(* ===================================================================== *)

Module Spec.

(** A normalized string: trimmed, then lower-cased. *)
Definition normalize (s : string) : string := toLowerCase (trim s).

(** The comma-separated tokens of a row's normalized [Alias] field,
    each trimmed and lower-cased. *)
Definition aliasTokens (row : Row) : list string :=
  map normalize (split "," (normalize (orEmpty (Alias row)))).

(** A row answers a query as the specification words it: its
    normalized [Explain] field equals the normalized query, or one of
    its alias tokens does. *)
Definition Answers (query : string) (row : Row) : Prop :=
  normalize (orEmpty (Explain row)) = normalize query
  \/ In (normalize query) (aliasTokens row).

(** The same, with the alias tokens counted only for a query that is
    not blank. *)
Definition AnswersNonBlank (query : string) (row : Row) : Prop :=
  normalize (orEmpty (Explain row)) = normalize query
  \/ (normalize query <> EmptyString /\ In (normalize query) (aliasTokens row)).

(** [row] is the first row of [rows], in fetched order, with [P]. *)
Definition FirstWith (P : Row -> Prop) (rows : list Row) (row : Row) : Prop :=
  exists before after,
    rows = (before ++ row :: after)%list
    /\ P row
    /\ forall x, In x before -> ~ P x.

(** A cell is shown: it holds a non-empty string whose trimmed,
    lower-cased form is not ["n/a"]. *)
Definition Shown (v : value) : Prop :=
  exists s, v = VStr s /\ s <> EmptyString /\ normalize s <> "n/a".

Fixpoint hyphens (n : nat) : string :=
  match n with
  | O => EmptyString
  | S m => String "-" (hyphens m)
  end.

(** Zero or more hyphens followed by [h] or [help], in any letter case. *)
Definition HelpWord (s : string) : Prop :=
  exists n t,
    s = hyphens n ++ t
    /\ (toLowerCase t = "h" \/ toLowerCase t = "help").

(** Every line-break character is removed and the rest is trimmed. *)
Definition sanitized (s : string) : string := trim (removeAll isLineBreak s).

(** The number of line-break characters of a string. *)
Fixpoint lineBreaks (s : string) : nat :=
  match s with
  | EmptyString => 0
  | String c t => (if isLineBreak c then 1 else 0) + lineBreaks t
  end.

(** The optional fields of a row with the labels they are shown under. *)
Definition candidates (row : Row) : list (value * value) :=
  [(VStr "PM", PM row); (VStr "Team", Team row);
   (VStr "Contact channel", Contact row); (VStr "Read more", Link row)].

(** The largest double below 1, [1 - 2 ^ -53], and the step [2 ^ -53]
    between it and 1. *)
Definition lastDouble : Q := 9007199254740991 # 9007199254740992.
Definition ulp : Q := 1 # 9007199254740992.

(** Some row of the list carries the index [k]. *)
Definition covered (rows : list WhyRow) (k : Z) : bool :=
  existsb (fun row => Z.eqb (rowIndex row) k) rows.

(** [p] is a prefix of [s]. *)
Definition StartsWith (p s : string) : Prop := exists rest, s = p ++ rest.

(** What an optional field adds to the text of the table: a line of its
    own, with its label and its sanitized value, when the field is
    shown, and nothing when it is not. *)
Definition FieldLine (label : string) (v : value) (line : string) : Prop :=
  (Shown v
   /\ exists s,
        v = VStr s
        /\ line = LF ++ "| " ++ label ++ " | "
                     ++ trim (removeFirst isLineBreak s) ++ " |")
  \/ (~ Shown v /\ line = EmptyString).

(** The calls of a run of [fetchExplanation] that nothing cuts short. *)
Definition fullRun (q : string) : list Event :=
  if String.eqb (normalize q) "why"
  then [EvAuth; EvLoadInfo; EvGetRows "Why"; EvRandom]
  else [EvAuth; EvLoadInfo; EvGetRows "Explain"].

(** The state of the sheet that a run on the query [q] reads. *)
Definition sheetRead (q : string) (b : Backend) : SheetState :=
  if String.eqb (normalize q) "why" then whyState b else explainState b.

End Spec.

(* ===================================================================== *)
(** ** Sample data *)
(* ===================================================================== *)

Module Sample.

Definition maas : Row :=
  mkRow (VStr "MAAS") (VStr "metal, Metal as a Service")
        (VStr "MAAS is a fast provisioning tool.")
        (VStr "Anton Smith") (VStr "N/A") (VStr "~MAAS") (VStr "https://maas.io").

Definition juju : Row :=
  mkRow (VStr "Juju") VUndef (VStr "Juju is an operator framework.")
        (VStr "n/a ") (VStr "") (VStr "0") VUndef.

Definition reason : Row :=
  mkRow (VStr "Reason") (VStr "why") (VStr "The reason behind a decision.")
        VUndef VUndef VUndef VUndef.

Definition haiku : Row :=
  mkRow (VStr "Haiku") VUndef
        (VStr ("line one" ++ LF ++ "line two" ++ LF ++ "line three"))
        VUndef VUndef VUndef VUndef.

Definition becauseRow : WhyRow := mkWhyRow 2 (VStr "Because we can.").
Definition whyNotRow : WhyRow := mkWhyRow 3 (VStr "Why not?").

Definition world : World :=
  mkWorld [becauseRow; whyNotRow] [maas; juju] (1 # 2)%Q.

Definition reasonWorld : World :=
  mkWorld [becauseRow; whyNotRow] [reason] (1 # 2)%Q.

Definition jujuWorld : World :=
  mkWorld [becauseRow; whyNotRow] [juju] (1 # 2)%Q.

(** The draw [0.6666666666666666], the double next below [2 / 3]. *)
Definition jujuWorld2 : World :=
  mkWorld [becauseRow; whyNotRow] [juju]
    (6004799503160661 # 9007199254740992)%Q.

Definition haikuWorld : World :=
  mkWorld [becauseRow; whyNotRow] [maas; haiku] (1 # 2)%Q.

(** The same world behind a backend that rejects the authentication. *)
Definition rejectedLogin : Outside :=
  mkOutside (mkBackend (Some "Error: invalid_grant") None SheetAnswers SheetAnswers)
            world.

(** Every variable is set but the token of the meet command. *)
Definition envWithoutMeetToken : Env :=
  fun name =>
    if String.eqb name "MATTERMOST_TOKEN_CMD_MEET" then VUndef
    else VStr "configured".

(** Every variable is set but the private key of the service account. *)
Definition envWithoutPrivateKey : Env :=
  fun name =>
    if String.eqb name "HUBOT_SPREADSHEET_PRIVATE_KEY" then VUndef
    else VStr "configured".

End Sample.

(* ===================================================================== *)
(** ** Facts about the primitives *)
(* ===================================================================== *)

Section Primitives.

Lemma slice0_length (n : nat) (s : string) : String.length (slice0 n s) <= n.
Proof.
  revert s; induction n as [|n IH]; intros [|c t]; simpl; try lia.
  specialize (IH t); lia.
Qed.

Lemma slice0_firstn (n : nat) (s : string) :
  list_ascii_of_string (slice0 n s) = firstn n (list_ascii_of_string s).
Proof.
  revert s; induction n as [|n IH]; intros [|c t]; simpl; try reflexivity.
  now rewrite IH.
Qed.

Lemma replaceAll_map (a b : ascii) (s : string) :
  list_ascii_of_string (replaceAll a b s)
  = map (fun c => if Ascii.eqb c a then b else c) (list_ascii_of_string s).
Proof.
  induction s as [|c t IH]; simpl; [reflexivity | now rewrite IH].
Qed.

Lemma removeAll_filter (cls : ascii -> bool) (s : string) :
  list_ascii_of_string (removeAll cls s)
  = filter (fun c => negb (cls c)) (list_ascii_of_string s).
Proof.
  induction s as [|c t IH]; simpl; [reflexivity|].
  destruct (cls c); simpl; now rewrite IH.
Qed.

Lemma append_assoc (a b c : string) : (a ++ b) ++ c = a ++ (b ++ c).
Proof.
  induction a as [|x a IH]; simpl; [reflexivity | now rewrite IH].
Qed.

Lemma append_empty_r (a : string) : a ++ EmptyString = a.
Proof.
  induction a as [|x a IH]; simpl; [reflexivity | now rewrite IH].
Qed.

Lemma isWhiteSpace_toLowerChar (c : ascii) :
  isWhiteSpace (toLowerChar c) = isWhiteSpace c.
Proof. destruct c as [[|] [|] [|] [|] [|] [|] [|] [|]]; vm_compute; reflexivity. Qed.

Lemma toLowerCase_trimStart (s : string) :
  toLowerCase (trimStart s) = trimStart (toLowerCase s).
Proof.
  induction s as [|c t IH]; simpl; [reflexivity|].
  rewrite isWhiteSpace_toLowerChar. now destruct (isWhiteSpace c).
Qed.

Lemma toLowerCase_trimEnd (s : string) :
  toLowerCase (trimEnd s) = trimEnd (toLowerCase s).
Proof.
  induction s as [|c t IH]; simpl; [reflexivity|].
  rewrite <- IH, isWhiteSpace_toLowerChar.
  destruct (trimEnd t); simpl; [now destruct (isWhiteSpace c) | reflexivity].
Qed.

(** Trimming and lower-casing can be done in either order. *)
Lemma normalize_code (s : string) : Spec.normalize s = trim (toLowerCase s).
Proof.
  unfold Spec.normalize, trim.
  now rewrite toLowerCase_trimEnd, toLowerCase_trimStart.
Qed.

End Primitives.

(* ===================================================================== *)
(** ** The meet link *)
(* ===================================================================== *)

(** C8. For every input string [s], [generateMeetLink s] returns exactly
    ["Your Meet is ready: https://g.co/meet/" ++ code ++ " " ++ s], where
    [code] is [s] with every ['@'] removed, every space replaced by a
    hyphen, and then cut to its first 59 characters; the code is never
    longer than 59 characters, the result ends with the participants
    text, nothing outside the script is called, and ["@a @b"] gives the
    link [https://g.co/meet/a-b]. *)
Theorem generateMeetLink_spec :
  (forall (s : string) (w : World),
      exists code,
        Meet.generateMeetLink s w
        = ([], Ok ("Your Meet is ready: https://g.co/meet/" ++ code ++ " " ++ s))
        /\ list_ascii_of_string code
           = firstn 59
               (map (fun c => if Ascii.eqb c " " then "-"%char else c)
                  (filter (fun c => negb (Ascii.eqb c "@"))
                     (list_ascii_of_string s)))
        /\ String.length code <= 59
        /\ exists front,
             "Your Meet is ready: https://g.co/meet/" ++ code ++ " " ++ s
             = front ++ s)
  /\ (forall w,
        Meet.generateMeetLink "@a @b" w
        = ([], Ok "Your Meet is ready: https://g.co/meet/a-b @a @b")).
Proof.
  split; [|reflexivity].
  intros s w. exists (Meet.meetCode s). repeat split.
  - unfold Meet.meetCode.
    now rewrite slice0_firstn, replaceAll_map, removeAll_filter.
  - apply slice0_length.
  - exists ("Your Meet is ready: https://g.co/meet/" ++ Meet.meetCode s ++ " ").
    now rewrite !append_assoc.
Qed.

(* ===================================================================== *)
(** ** The help pattern *)
(* ===================================================================== *)

Section HelpPattern.

Ltac each_ascii d :=
  destruct d as [[|] [|] [|] [|] [|] [|] [|] [|]]; vm_compute; reflexivity.

Lemma deriv_helpPattern (d : ascii) :
  deriv true d Explain.helpPattern
  = if Ascii.eqb d "-" then Explain.helpPattern
    else if Ascii.eqb (toLowerChar d) "h"
         then Opt (Cat (Lit "e") (Cat (Lit "l") (Lit "p")))
         else Void.
Proof. each_ascii d. Qed.

Lemma deriv_opt_elp (d : ascii) :
  deriv true d (Opt (Cat (Lit "e") (Cat (Lit "l") (Lit "p"))))
  = if Ascii.eqb (toLowerChar d) "e" then Cat (Lit "l") (Lit "p") else Void.
Proof. each_ascii d. Qed.

Lemma deriv_lp (d : ascii) :
  deriv true d (Cat (Lit "l") (Lit "p"))
  = if Ascii.eqb (toLowerChar d) "l" then Lit "p" else Void.
Proof. each_ascii d. Qed.

Lemma deriv_p (d : ascii) :
  deriv true d (Lit "p")
  = if Ascii.eqb (toLowerChar d) "p" then Eps else Void.
Proof. each_ascii d. Qed.

Lemma matchWhole_Void (t : string) : matchWhole true Void t = false.
Proof. induction t as [|d t IH]; simpl; auto. Qed.

Lemma matchWhole_Eps (t : string) :
  matchWhole true Eps t = true <-> toLowerCase t = EmptyString.
Proof.
  destruct t as [|d t]; simpl.
  - tauto.
  - rewrite matchWhole_Void. split; discriminate.
Qed.

(** A state that is left only by the letter [c]. *)
Lemma matchWhole_letter (r r' : regex) (c : ascii) (x : string) :
  nullable r = false ->
  (forall d, deriv true d r = if Ascii.eqb (toLowerChar d) c then r' else Void) ->
  (forall t, matchWhole true r' t = true <-> toLowerCase t = x) ->
  forall t, matchWhole true r t = true <-> toLowerCase t = String c x.
Proof.
  intros Hnull Hderiv Hnext [|d t]; simpl.
  - rewrite Hnull. split; discriminate.
  - rewrite Hderiv. destruct (Ascii.eqb (toLowerChar d) c) eqn:E.
    + apply Ascii.eqb_eq in E. rewrite E, Hnext.
      split; [intros ->; reflexivity | intros H; now inversion H].
    + rewrite matchWhole_Void. split; [discriminate|].
      intros H. inversion H as [[H1 H2]]. apply Ascii.eqb_neq in E. contradiction.
Qed.

Lemma matchWhole_p (t : string) :
  matchWhole true (Lit "p") t = true <-> toLowerCase t = "p".
Proof.
  apply matchWhole_letter with (r' := Eps);
    [reflexivity | apply deriv_p | apply matchWhole_Eps].
Qed.

Lemma matchWhole_lp (t : string) :
  matchWhole true (Cat (Lit "l") (Lit "p")) t = true <-> toLowerCase t = "lp".
Proof.
  apply matchWhole_letter with (r' := Lit "p");
    [reflexivity | apply deriv_lp | apply matchWhole_p].
Qed.

Lemma matchWhole_opt_elp (t : string) :
  matchWhole true (Opt (Cat (Lit "e") (Cat (Lit "l") (Lit "p")))) t = true
  <-> toLowerCase t = EmptyString \/ toLowerCase t = "elp".
Proof.
  destruct t as [|d t].
  - simpl. tauto.
  - cbn [matchWhole]. rewrite deriv_opt_elp.
    destruct (Ascii.eqb (toLowerChar d) "e") eqn:E.
    + apply Ascii.eqb_eq in E. rewrite matchWhole_lp. simpl. rewrite E.
      split.
      * intros ->. now right.
      * intros [H|H]; [discriminate | now inversion H].
    + rewrite matchWhole_Void. apply Ascii.eqb_neq in E. simpl.
      split; [discriminate|].
      intros [H|H]; [discriminate | inversion H; contradiction].
Qed.

Lemma HelpWord_hyphen (t : string) :
  Spec.HelpWord (String "-" t) <-> Spec.HelpWord t.
Proof.
  split.
  - intros [[|n] [u [E H]]]; simpl in E.
    + subst u. destruct H as [H|H]; simpl in H; inversion H.
    + inversion E. now exists n, u.
  - intros [n [u [E H]]]. exists (S n), u. simpl. now rewrite E.
Qed.

Lemma HelpWord_other (d : ascii) (t : string) :
  Ascii.eqb d "-" = false ->
  Spec.HelpWord (String d t)
  <-> toLowerChar d = "h"%char
      /\ (toLowerCase t = EmptyString \/ toLowerCase t = "elp").
Proof.
  intros Hd. apply Ascii.eqb_neq in Hd. split.
  - intros [[|n] [u [E H]]]; simpl in E.
    + subst u. simpl in H.
      destruct H as [H|H]; inversion H; split; auto.
    + inversion E. congruence.
  - intros [Hh H]. exists 0, (String d t). split; [reflexivity|].
    simpl. rewrite Hh. destruct H as [->| ->]; auto.
Qed.

(** The pattern accepts exactly the help words. *)
Lemma helpPattern_HelpWord (s : string) :
  matchWhole true Explain.helpPattern s = true <-> Spec.HelpWord s.
Proof.
  induction s as [|d t IH].
  - simpl. split; [discriminate|].
    intros [[|n] [u [E H]]]; simpl in E; [|discriminate].
    subst u. destruct H; discriminate.
  - cbn [matchWhole]. rewrite deriv_helpPattern.
    destruct (Ascii.eqb d "-") eqn:Ed.
    + apply Ascii.eqb_eq in Ed. subst d. now rewrite HelpWord_hyphen.
    + rewrite (HelpWord_other d t Ed).
      destruct (Ascii.eqb (toLowerChar d) "h") eqn:Eh.
      * apply Ascii.eqb_eq in Eh. rewrite matchWhole_opt_elp. tauto.
      * apply Ascii.eqb_neq in Eh. rewrite matchWhole_Void.
        split; [discriminate | tauto].
Qed.

End HelpPattern.

(* ===================================================================== *)
(** ** Running [fetchExplanation] *)
(* ===================================================================== *)

Section Running.


Lemma looseEq_refl (secret : value) : looseEq secret secret = Ok true.
Proof. destruct secret as [|s]; simpl; [reflexivity | now rewrite String.eqb_refl]. Qed.

(** A run of [fetchExplanation], whatever the backend does: a rejected
    call or a missing sheet ends it, and nothing is called after. *)
Lemma fetchExplanation_outside (q : string) (o : Outside) :
  Explain.fetchExplanation q o
  = match authError (backend o) with
    | Some err => ([EvAuth], Throw err)
    | None =>
        match loadInfoError (backend o) with
        | Some err => ([EvAuth; EvLoadInfo], Throw err)
        | None =>
            if String.eqb (trim (toLowerCase q)) "why" then
              match whyState (backend o) with
              | SheetMissing => ([EvAuth; EvLoadInfo], Throw noSheet)
              | SheetRejects err =>
                  ([EvAuth; EvLoadInfo; EvGetRows "Why"], Throw err)
              | SheetAnswers =>
                  ([EvAuth; EvLoadInfo; EvGetRows "Why"; EvRandom],
                   match find (Explain.sameIndex
                                 (Explain.randomIndex (mathRandom (world o))
                                    (List.length (whySheet (world o)))))
                              (whySheet (world o)) with
                   | Some row => Ok (why row)
                   | None => Throw (Explain.notAString "why")
                   end)
              end
            else
              match explainState (backend o) with
              | SheetMissing => ([EvAuth; EvLoadInfo], Throw noSheet)
              | SheetRejects err =>
                  ([EvAuth; EvLoadInfo; EvGetRows "Explain"], Throw err)
              | SheetAnswers =>
                  ([EvAuth; EvLoadInfo; EvGetRows "Explain"],
                   match find (Explain.rowMatches q) (explainSheet (world o)) with
                   | None => Ok (VStr Explain.usage)
                   | Some row =>
                       match Explain.formatRowToMDTable row with
                       | Ok s => Ok (VStr s)
                       | Throw e => Throw e
                       end
                   end)
              end
        end
    end.
Proof.
  unfold Explain.fetchExplanation, useServiceAccountAuth, loadInfo, awaited,
    getWhyRows, getExplainRows, getRows, random, bind, emit, ask, ret, throw, lift.
  destruct (authError (backend o)); [reflexivity|].
  destruct (loadInfoError (backend o)); [reflexivity|].
  destruct (String.eqb (trim (toLowerCase q)) "why").
  - destruct (whyState (backend o)); try reflexivity.
    simpl. destruct (find _ (whySheet (world o))); reflexivity.
  - destruct (explainState (backend o)); try reflexivity.
    simpl. destruct (find _ (explainSheet (world o))) as [row|]; simpl;
      [destruct (Explain.formatRowToMDTable row)|]; reflexivity.
Qed.

(** Outside the why mode one sheet is read and searched. *)
Lemma fetchExplanation_explain (q : string) (w : World) :
  String.eqb (trim (toLowerCase q)) "why" = false ->
  Explain.fetchExplanation q w
  = ([EvAuth; EvLoadInfo; EvGetRows "Explain"],
     match find (Explain.rowMatches q) (explainSheet w) with
     | None => Ok (VStr Explain.usage)
     | Some row =>
         match Explain.formatRowToMDTable row with
         | Ok s => Ok (VStr s)
         | Throw e => Throw e
         end
     end).
Proof.
  intros Hq. rewrite fetchExplanation_outside, Hq. reflexivity.
Qed.

(** In the why mode the other sheet is read and one number is drawn. *)
Lemma fetchExplanation_why (q : string) (w : World) :
  String.eqb (trim (toLowerCase q)) "why" = true ->
  Explain.fetchExplanation q w
  = ([EvAuth; EvLoadInfo; EvGetRows "Why"; EvRandom],
     match find (Explain.sameIndex
                   (Explain.randomIndex (mathRandom w) (List.length (whySheet w))))
                (whySheet w) with
     | Some row => Ok (why row)
     | None => Throw (Explain.notAString "why")
     end).
Proof.
  intros Hq. rewrite fetchExplanation_outside, Hq. reflexivity.
Qed.

End Running.

(* ===================================================================== *)
(** ** The HTTP handlers *)
(* ===================================================================== *)




(** C10. For every POST to /hubot/explain with the valid token, the
    handler answers with the usage message and contacts nothing outside
    the script whenever the text field is absent or empty, or its
    trimmed value is zero or more hyphens followed by [h] or [help] in
    any letter case.  [H], [-h], [--help] and [-hElP] are answered that
    way; [hh] and [helps] are logged and looked up in the spreadsheet. *)
Theorem explain_help_usage :
  (forall (secret : value) (body : Body) (w : World),
      token body = secret ->
      (text body = VUndef
       \/ text body = VStr EmptyString
       \/ exists q, text body = VStr q /\ Spec.HelpWord (trim q)) ->
      Explain.post secret body w
      = ([], Ok (mkResponse 200
                   (Json [("response_type", VStr "ephemeral");
                          ("text", VStr Explain.usage)]))))
  /\ (forall (secret : value) (w : World) (q : string),
        In q ["H"; "-h"; "--help"; "-hElP"; " help "] ->
        Explain.post secret (mkBody secret (VStr q)) w
        = ([], Ok (mkResponse 200
                     (Json [("response_type", VStr "ephemeral");
                            ("text", VStr Explain.usage)]))))
  /\ (forall (secret : value) (w : World) (q : string),
        In q ["hh"; "helps"] ->
        fst (Explain.post secret (mkBody secret (VStr q)) w)
        = [EvLog (": " ++ q); EvAuth; EvLoadInfo; EvGetRows "Explain"]).
Proof.
  split; [|split].
  - intros secret body w Htok Htext. unfold Explain.post, bind, lift.
    rewrite Htok, looseEq_refl. cbn [negb].
    destruct Htext as [-> | [-> | [q [-> Hq]]]]; try reflexivity.
    apply helpPattern_HelpWord in Hq.
    destruct q as [|c q]; [reflexivity|].
    cbn [isTruthy truthy negb]. now rewrite Hq.
  - intros secret w q Hq. unfold Explain.post, bind, lift. cbn [token].
    rewrite looseEq_refl.
    simpl in Hq.
    repeat (destruct Hq as [<- | Hq]; [reflexivity|]). contradiction.
  - intros secret w q Hq. unfold Explain.post, bind, lift. cbn [token].
    rewrite looseEq_refl.
    simpl in Hq.
    destruct Hq as [<- | [<- | []]]; simpl;
      unfold loggerInfo, emit;
      rewrite fetchExplanation_explain by reflexivity;
      destruct (find _ (explainSheet w)) as [row|];
      [destruct (Explain.formatRowToMDTable row)| |
       destruct (Explain.formatRowToMDTable row)|]; reflexivity.
Qed.

Lemma explain_help_usage_witness :
  Explain.post (VStr "s3cret") (mkBody (VStr "s3cret") (VStr " --HELP ")) Sample.world
  = ([], Ok (mkResponse 200
               (Json [("response_type", VStr "ephemeral");
                      ("text", VStr Explain.usage)]))).
Proof.
  apply (proj1 explain_help_usage).
  - reflexivity.
  - right; right. exists " --HELP ". split; [reflexivity|].
    exists 2, "HELP". split; [reflexivity | right; reflexivity].
Defined.

(* ===================================================================== *)
(** ** The why mode *)
(* ===================================================================== *)

Section Rounding.

Local Open Scope Z_scope.

(** Rounding [A / den] to the nearest integer, ties to even. *)
Lemma nearest_spec (A den : Z) :
  0 < den -> 0 <= A ->
  forall q',
    q' = (if (den <? 2 * (A mod den)) || ((den =? 2 * (A mod den)) && Z.odd (A / den))
          then A / den + 1 else A / den) ->
    A / den <= q' <= A / den + 1
    /\ 2 * (q' * den - A) <= den
    /\ 2 * (A - q' * den) <= den.
Proof.
  intros Hden HA q' Hq'.
  pose proof (Z.div_mod A den (Z.neq_sym _ _ (Z.lt_neq _ _ Hden))) as Hdm.
  pose proof (Z.mod_pos_bound A den Hden) as Hmod.
  remember (A / den) as q. remember (A mod den) as r.
  assert (H : (q' = q /\ 2 * r <= den) \/ (q' = q + 1 /\ den <= 2 * r)).
  { subst q'. destruct (den <? 2 * r) eqn:E1; cbn [orb andb].
    - right. apply Z.ltb_lt in E1. lia.
    - apply Z.ltb_ge in E1. destruct (den =? 2 * r) eqn:E2; cbn [orb andb].
      + apply Z.eqb_eq in E2. destruct (Z.odd q); [right | left]; lia.
      + left. lia. }
  clear Hq' Heqq Heqr.
  destruct H as [[-> H] | [-> H]]; nia.
Qed.

(** The number of dropped bits: none, or as many as leave 53. *)
Lemma dropped_spec (A B : Z) :
  0 < B -> 0 <= A ->
  forall s, s = Z.max (Z.log2 (A / B) - 52) 0 ->
  0 <= s /\ (s = 0 \/ 2 ^ (s + 52) * B <= A).
Proof.
  intros HB HA s Hs. split; [subst s; apply Z.le_max_r|].
  destruct (Z.eq_dec s 0) as [E0 | Hne]; [now left | right].
  assert (Htb : A / B * B <= A) by (rewrite Z.mul_comm; apply Z.mul_div_le; lia).
  remember (A / B) as t.
  assert (Hs' : s = Z.log2 t - 52) by lia.
  assert (Ht : 0 < t).
  { destruct (Z_lt_le_dec 0 t) as [H | H]; [exact H|].
    rewrite (Z.log2_nonpos t H) in Hs'. lia. }
  replace (s + 52) with (Z.log2 t) by lia.
  pose proof (proj1 (Z.log2_spec t Ht)) as Hlog.
  apply Z.le_trans with (t * B); [|exact Htb].
  apply Z.mul_le_mono_nonneg_r; lia.
Qed.

Lemma pow2_le_units (s : Z) : 0 <= s <= 1074 -> 2 ^ s <= 2 ^ 1074.
Proof. intros H. apply Z.pow_le_mono_r; lia. Qed.

Lemma roundPos_spec (a : Z) (b : positive) :
  0 < a -> a < 2 ^ 33 * Z.pos b ->
  exists R s,
    roundPos a b = Finite (R # 2 ^ 1074)
    /\ 0 <= s <= 1074
    /\ (a * 2 ^ 1074) / (Z.pos b * 2 ^ s) * 2 ^ s <= R
    /\ 2 * (R * Z.pos b - a * 2 ^ 1074) <= Z.pos b * 2 ^ s
    /\ (s = 0 \/ 2 ^ (s + 52) * Z.pos b <= a * 2 ^ 1074).
Proof.
  intros Ha Hsmall. unfold roundPos.
  remember (2 ^ 1074) as U eqn:EU.
  assert (HU : 0 < U) by (subst U; apply Z.pow_pos_nonneg; lia).
  remember (a * U) as A eqn:EA.
  remember (Z.pos b) as B eqn:EB.
  assert (HB : 0 < B) by (subst B; lia).
  assert (HA : 0 < A) by (subst A; apply Z.mul_pos_pos; assumption).
  remember (Z.max (Z.log2 (A / B) - 52) 0) as s eqn:Es.
  destruct (dropped_spec A B HB (Z.lt_le_incl _ _ HA) s Es) as [Hs0 Hnorm].
  assert (HAU : A < 2 ^ 33 * B * U).
  { subst A. apply Z.mul_lt_mono_pos_r; assumption. }
  assert (Hs1 : s <= 1074).
  { destruct Hnorm as [E0 | Hn]; [clear - E0; lia|].
    assert (H : 2 ^ (s + 52) * B < 2 ^ 33 * B * U)
      by (eapply Z.le_lt_trans; [exact Hn | exact HAU]).
    assert (Hp : 2 ^ (s + 52) < 2 ^ (33 + 1074)).
    { rewrite (Z.pow_add_r 2 33 1074) by lia. rewrite <- EU.
      apply Z.mul_lt_mono_pos_r with (p := B); [assumption|].
      replace (2 ^ 33 * U * B) with (2 ^ 33 * B * U) by ring.
      exact H. }
    apply Z.pow_lt_mono_r_iff in Hp; clear - Hp Hs0; lia. }
  remember (2 ^ s) as P eqn:EP.
  assert (HP : 0 < P) by (subst P; apply Z.pow_pos_nonneg; lia).
  assert (HPU : P <= U) by (subst P U; apply pow2_le_units; split; assumption).
  remember (B * P) as den eqn:Eden.
  assert (Hden : 0 < den) by (subst den; apply Z.mul_pos_pos; assumption).
  remember (if (den <? 2 * (A mod den)) || ((den =? 2 * (A mod den)) && Z.odd (A / den))
            then A / den + 1 else A / den) as q' eqn:Eq'.
  destruct (nearest_spec A den Hden (Z.lt_le_incl _ _ HA) q' Eq') as [Hq [Hup Hdown]].
  assert (Hmul : A / den * den <= A).
  { rewrite Z.mul_comm. apply Z.mul_div_le. assumption. }
  assert (Hq0 : 0 <= A / den) by (apply Z.div_pos; [apply Z.lt_le_incl|]; assumption).
  remember (A / den) as q eqn:Eq.
  assert (Hbound : q' * P < 2 ^ 2098).
  { assert (H1 : q * P * B < 2 ^ 33 * U * B).
    { clear - Hmul HAU Eden. subst den. nia. }
    assert (H2 : q * P < 2 ^ 33 * U).
    { apply Z.mul_lt_mono_pos_r with (p := B); assumption. }
    assert (H4 : q' * P <= q * P + P) by (clear - Hq HP; nia).
    assert (H5 : (2 ^ 33 + 1) * U < 2 ^ 2098).
    { subst U.
      replace (2 ^ 2098) with (2 ^ 1024 * 2 ^ 1074)
        by (rewrite <- Z.pow_add_r; [reflexivity | lia | lia]).
      apply Z.mul_lt_mono_pos_r; [apply Z.pow_pos_nonneg; lia|].
      apply Z.lt_le_trans with (2 ^ 34); [lia|]. apply Z.pow_le_mono_r; lia. }
    clear - H2 H4 H5 HPU. lia. }
  apply Z.leb_gt in Hbound. rewrite Hbound.
  exists (q' * P), s.
  split; [reflexivity|]. split; [split; assumption|].
  rewrite <- !EP, <- !Eden, <- Eq.
  split; [|split; [|exact Hnorm]].
  - clear - Hq HP. nia.
  - clear - Hup Eden. subst den. nia.
Qed.

Lemma units_split : 2 ^ 1074 = 2 ^ 1021 * 2 ^ 53.
Proof. rewrite <- Z.pow_add_r by lia. reflexivity. Qed.

Lemma Qfloor_units (R : Z) : Qfloor (R # 2 ^ 1074) = R / 2 ^ 1074.
Proof. unfold Qfloor. now rewrite Pos2Z.inj_pow. Qed.

(** The rounded product [a / b] of a draw and the number of indices
    [N1], counted in units: it is not below an integer that the exact
    product reaches, and it is below [j + 1] when the exact product
    stays [N1 / 2 ^ 53] below it. *)
Lemma rounded_bounds (a : Z) (b : positive) (N1 : Z) :
  0 < a -> N1 <= 2 ^ 32 -> a <= N1 * Z.pos b ->
  exists R,
    roundPos a b = Finite (R # 2 ^ 1074)
    /\ (forall i, 0 <= i -> i * Z.pos b <= a -> i * 2 ^ 1074 <= R)
    /\ (forall j, 0 <= j -> j + 1 <= N1 ->
          a * 2 ^ 53 + N1 * Z.pos b <= (j + 1) * 2 ^ 53 * Z.pos b ->
          R < (j + 1) * 2 ^ 1074).
Proof.
  intros Ha HN HaN.
  remember (Z.pos b) as B eqn:EB.
  assert (HB : 0 < B) by (subst B; lia).
  assert (Hsmall : a < 2 ^ 33 * B) by nia.
  subst B.
  destruct (roundPos_spec a b Ha Hsmall) as [R [s [HR [Hs [Hq [Hup Hnorm]]]]]].
  exists R. split; [exact HR|].
  remember (Z.pos b) as B eqn:EB.
  remember (2 ^ 1074) as U eqn:EU.
  remember (2 ^ 1021) as K eqn:EK.
  remember (2 ^ s) as P eqn:EP.
  assert (HUK : U = K * 2 ^ 53) by (subst U K; apply units_split).
  assert (HK : 0 < K) by (subst K; apply Z.pow_pos_nonneg; lia).
  assert (HU : 0 < U) by (subst U; apply Z.pow_pos_nonneg; lia).
  assert (HP : 0 < P) by (subst P; apply Z.pow_pos_nonneg; lia).
  assert (HPU : P * 2 ^ (1074 - s) = U).
  { subst P U. rewrite <- Z.pow_add_r by lia. f_equal. lia. }
  assert (Hco : 0 < 2 ^ (1074 - s)) by (apply Z.pow_pos_nonneg; lia).
  remember (2 ^ (1074 - s)) as C eqn:EC.
  split.
  - intros i Hi Hlow.
    apply Z.le_trans with (a * U / (B * P) * P); [|exact Hq].
    replace (i * U) with (i * C * P) by (rewrite <- HPU; ring).
    apply Z.mul_le_mono_nonneg_r; [lia|].
    apply Z.div_le_lower_bound; [nia|].
    replace (B * P * (i * C)) with (i * B * U) by (rewrite <- HPU; ring).
    nia.
  - intros j Hj HjN Hhigh.
    assert (Hhigh' : a * U + N1 * K * B <= (j + 1) * U * B) by (rewrite HUK; nia).
    destruct (Z_lt_le_dec R ((j + 1) * U)) as [H | H]; [exact H | exfalso].
    assert (H1 : 2 * (N1 * K * B) <= B * P) by nia.
    assert (H2 : 2 * (N1 * K) <= P) by nia.
    assert (H3 : 1 < P) by nia.
    destruct Hnorm as [E0 | Hn].
    + subst s. subst P. simpl in H3. lia.
    + rewrite Z.pow_add_r in Hn by lia. rewrite <- EP in Hn.
      assert (H4 : P * 2 ^ 52 * B < (j + 1) * U * B) by nia.
      assert (H5 : P * 2 ^ 52 < (j + 1) * U) by nia.
      assert (H6 : N1 * U <= P * 2 ^ 52).
      { rewrite HUK. replace (2 ^ 53) with (2 * 2 ^ 52) by reflexivity. nia. }
      nia.
Qed.

(** The drawn index, for a draw [rn / rd] of [0, 1 - 2 ^ -53] and fewer
    than [2 ^ 32] rows. *)
Lemma randomIndex_bounds (rn : Z) (rd : positive) (n : nat) :
  Z.of_nat n < 2 ^ 32 ->
  0 <= rn ->
  rn * 2 ^ 53 <= (2 ^ 53 - 1) * Z.pos rd ->
  exists idx,
    Explain.randomIndex (rn # rd) n = Some idx
    /\ (forall i, 0 <= i -> i * Z.pos rd <= rn * (Z.of_nat n + 1) -> i <= idx)
    /\ (forall j, 0 <= j <= Z.of_nat n ->
          rn * (Z.of_nat n + 1) * 2 ^ 53 + (Z.of_nat n + 1) * Z.pos rd
          <= (j + 1) * 2 ^ 53 * Z.pos rd ->
          idx <= j).
Proof.
  intros Hn Hrn Hmax. unfold Explain.randomIndex, roundDouble.
  cbn [Qmult Qnum Qden inject_Z]. rewrite Pos.mul_1_r.
  remember (Z.of_nat n + 1) as N1 eqn:EN.
  assert (HN : 1 <= N1 <= 2 ^ 32) by lia.
  destruct (rn * N1) as [|p|p] eqn:E.
  - exists 0. split; [reflexivity|]. split.
    + intros i Hi Hlow. nia.
    + intros j Hj _. lia.
  - destruct (rounded_bounds (Z.pos p) rd N1) as [R [HR [Hlow Hhigh]]];
      [lia | lia | nia |].
    exists (R / 2 ^ 1074). rewrite HR, Qfloor_units.
    split; [reflexivity|].
    assert (HU : 0 < 2 ^ 1074) by (apply Z.pow_pos_nonneg; lia).
    split.
    + intros i Hi Hi'. apply Z.div_le_lower_bound; [exact HU|].
      rewrite Z.mul_comm. now apply Hlow.
    + intros j Hj Hj'. apply Z.lt_succ_r. apply Z.div_lt_upper_bound; [exact HU|].
      rewrite Z.mul_comm. apply Hhigh; lia.
  - exfalso. nia.
Qed.

Lemma randomIndex_between (rn : Z) (rd : positive) (n : nat) (i : Z) :
  Z.of_nat n < 2 ^ 32 -> 0 <= i <= Z.of_nat n ->
  i * Z.pos rd <= rn * (Z.of_nat n + 1) ->
  rn * (Z.of_nat n + 1) * 2 ^ 53 + (Z.of_nat n + 1) * Z.pos rd
  <= (i + 1) * 2 ^ 53 * Z.pos rd ->
  Explain.randomIndex (rn # rd) n = Some i.
Proof.
  intros Hn Hi Hlow Hhigh.
  destruct (randomIndex_bounds rn rd n Hn) as [idx [Hidx [Hge Hle]]].
  - nia.
  - nia.
  - rewrite Hidx. f_equal.
    pose proof (Hge i ltac:(lia) Hlow). pose proof (Hle i Hi Hhigh). lia.
Qed.

Lemma two_53 : Z.pos 9007199254740992 = 2 ^ 53.
Proof. reflexivity. Qed.

(** The same in terms of the draw: the index [i] is drawn for every
    number of [[i / (n + 1), (i + 1) / (n + 1) - 2 ^ -53]]. *)
Lemma randomIndex_interval (r : Q) (n : nat) (i : Z) :
  Z.of_nat n < 2 ^ 32 -> 0 <= i <= Z.of_nat n ->
  (i # Pos.of_succ_nat n <= r)%Q ->
  (r <= ((i + 1) # Pos.of_succ_nat n) - Spec.ulp)%Q ->
  Explain.randomIndex r n = Some i.
Proof.
  intros Hn Hi Hlow Hhigh. destruct r as [rn rd].
  unfold Qle, Qminus, Qplus, Qopp, Spec.ulp in Hlow, Hhigh.
  cbn [Qnum Qden] in Hlow, Hhigh.
  rewrite Pos2Z.inj_mul, ?Zpos_P_of_succ_nat, ?two_53 in *.
  change (Z.opp 1) with (-1) in Hhigh.
  apply randomIndex_between; try assumption; nia.
Qed.

Lemma randomIndex_range (r : Q) (n : nat) :
  Z.of_nat n < 2 ^ 32 ->
  (0 <= r)%Q -> (r <= Spec.lastDouble)%Q ->
  exists i, Explain.randomIndex r n = Some i /\ 0 <= i <= Z.of_nat n.
Proof.
  intros Hn H0 H1. destruct r as [rn rd].
  unfold Qle, Spec.lastDouble in H0, H1. cbn [Qnum Qden] in H0, H1.
  rewrite two_53 in H1.
  destruct (randomIndex_bounds rn rd n Hn) as [idx [Hidx [Hge Hle]]];
    [lia | lia |].
  exists idx. split; [exact Hidx|]. split.
  - apply Hge; nia.
  - apply Hle; nia.
Qed.

(** Every index of [0 .. n], the upper bound included, is drawn for
    some double [m / 2 ^ 53] of [0, 1). *)
Lemma randomIndex_attained (n : nat) (i : Z) :
  Z.of_nat n < 2 ^ 32 -> 0 <= i <= Z.of_nat n ->
  exists m,
    0 <= m < 2 ^ 53
    /\ Explain.randomIndex (m # 9007199254740992) n = Some i.
Proof.
  intros Hn Hi.
  remember (Z.of_nat n + 1) as N1 eqn:EN.
  assert (HN : 1 <= N1 <= 2 ^ 32) by lia.
  remember (i * 2 ^ 53 + N1 - 1) as y eqn:Ey.
  pose proof (Z.div_mod y N1 ltac:(lia)) as Hdm.
  pose proof (Z.mod_pos_bound y N1 ltac:(lia)) as Hmod.
  remember (y / N1) as m eqn:Em. remember (y mod N1) as rest eqn:Erest.
  assert (Hm1 : i * 2 ^ 53 <= m * N1) by lia.
  assert (Hm2 : m * N1 <= i * 2 ^ 53 + N1 - 1) by lia.
  exists m. split; [nia|].
  apply randomIndex_between; try assumption; rewrite ?two_53, <- ?EN; nia.
Qed.

End Rounding.

Section WhyMode.

Local Open Scope Z_scope.

Lemma covered_true (rows : list WhyRow) (k : Z) :
  Spec.covered rows k = true <-> exists row, In row rows /\ rowIndex row = k.
Proof.
  unfold Spec.covered. rewrite existsb_exists.
  split; intros [row [Hin H]]; exists row; split; auto; now apply Z.eqb_eq.
Qed.

Lemma find_none_uncovered (rows : list WhyRow) (k : Z) :
  Spec.covered rows k = false ->
  find (Explain.sameIndex (Some k)) rows = None.
Proof.
  unfold Spec.covered. induction rows as [|row rows IH]; simpl; [reflexivity|].
  destruct (Z.eqb (rowIndex row) k); simpl; [discriminate | exact IH].
Qed.

(** The search takes the first row that carries the index. *)
Lemma find_first_index (before after : list WhyRow) (row : WhyRow) (k : Z) :
  rowIndex row = k ->
  (forall x, In x before -> rowIndex x <> k) ->
  find (Explain.sameIndex (Some k)) (before ++ row :: after) = Some row.
Proof.
  intros Hrow Hbefore. induction before as [|x before IH]; simpl.
  - apply Z.eqb_eq in Hrow. now rewrite Hrow.
  - destruct (Z.eqb (rowIndex x) k) eqn:E.
    + apply Z.eqb_eq in E. exfalso. now apply (Hbefore x (or_introl eq_refl)).
    + apply IH. intros y Hy. apply Hbefore. now right.
Qed.

(** Searching [0 .. n] for an index that no row has. *)
Lemma uncovered_search (rows : list WhyRow) (n : nat) :
  (forall k, 0 <= k <= Z.of_nat n -> Spec.covered rows k = true)
  \/ (exists k, 0 <= k <= Z.of_nat n /\ Spec.covered rows k = false).
Proof.
  induction n as [|n IH].
  - destruct (Spec.covered rows 0) eqn:E.
    + left. intros k Hk. replace k with 0 by lia. exact E.
    + right. exists 0. split; [simpl; lia | exact E].
  - destruct IH as [IH | [k [Hk E]]].
    + destruct (Spec.covered rows (Z.of_nat (S n))) eqn:E.
      * left. intros k Hk.
        destruct (Z.eq_dec k (Z.of_nat (S n))) as [->|Hne]; [exact E|].
        apply IH. lia.
      * right. exists (Z.of_nat (S n)). split; [lia | exact E].
    + right. exists k. split; [lia | exact E].
Qed.

(** [n] rows cannot carry the [n + 1] indices of [0 .. n]: some draw
    always misses. *)
Lemma rows_never_cover (rows : list WhyRow) :
  exists k, 0 <= k <= Z.of_nat (List.length rows) /\ Spec.covered rows k = false.
Proof.
  destruct (uncovered_search rows (List.length rows)) as [Hall | Hex]; [|exact Hex].
  exfalso.
  set (ks := map Z.of_nat (seq 0 (S (List.length rows)))).
  assert (Hnodup : NoDup ks).
  { apply Injective_map_NoDup; [|apply seq_NoDup].
    intros a b. apply Nat2Z.inj. }
  assert (Hincl : incl ks (map rowIndex rows)).
  { intros k Hk. apply in_map_iff in Hk. destruct Hk as [m [<- Hm]].
    apply in_seq in Hm.
    destruct (proj1 (covered_true rows (Z.of_nat m))) as [row [Hin Hrow]].
    - apply Hall. lia.
    - apply in_map_iff. now exists row. }
  pose proof (NoDup_incl_length Hnodup Hincl) as Hlen.
  unfold ks in Hlen. rewrite !length_map, length_seq in Hlen. lia.
Qed.

End WhyMode.

(** C1. In the why mode (normalized query equal to ["why"]) the index
    that [fetchExplanation] draws lies in [0 .. rowCount], upper bound
    included, for every number that [Math.random] can return.  The draw
    is uniform up to the rounding of the product: the index [i] is
    drawn for every number of
    [[i / (rowCount + 1), (i + 1) / (rowCount + 1) - 2 ^ -53]], and every
    index of [0 .. rowCount], [rowCount] itself included, is drawn for
    some double.  (Just below the end of such an interval the product
    may round up: [0.6666666666666666] with two rows draws 2.)  The call
    returns the [why] cell of the first fetched row that carries the
    drawn index; when no fetched row carries it, the call fails with
    the [TypeError] of reading [why] of [undefined] instead of returning
    a string; and for every list of rows whose indices do not cover all
    of [0 .. rowCount], some draw makes the call fail. *)
Theorem why_mode_draw_can_fail :
  (forall (r : Q) (n : nat),
      (Z.of_nat n < 2 ^ 32)%Z ->
      (0 <= r)%Q -> (r <= Spec.lastDouble)%Q ->
      exists i, Explain.randomIndex r n = Some i /\ (0 <= i <= Z.of_nat n)%Z)
  /\ (forall (r : Q) (n : nat) (i : Z),
        (Z.of_nat n < 2 ^ 32)%Z -> (0 <= i <= Z.of_nat n)%Z ->
        (i # Pos.of_succ_nat n <= r)%Q ->
        (r <= ((i + 1) # Pos.of_succ_nat n) - Spec.ulp)%Q ->
        Explain.randomIndex r n = Some i)
  /\ (forall (n : nat) (i : Z),
        (Z.of_nat n < 2 ^ 32)%Z -> (0 <= i <= Z.of_nat n)%Z ->
        exists m,
          (0 <= m < 2 ^ 53)%Z
          /\ Explain.randomIndex (m # 9007199254740992) n = Some i)
  /\ Explain.randomIndex (6004799503160661 # 9007199254740992) 2 = Some 2%Z
  /\ (forall (q : string) (w : World) (i : Z)
             (before after : list WhyRow) (row : WhyRow),
        Spec.normalize q = "why" ->
        Explain.randomIndex (mathRandom w) (List.length (whySheet w)) = Some i ->
        whySheet w = (before ++ row :: after)%list ->
        rowIndex row = i ->
        (forall x, In x before -> rowIndex x <> i) ->
        Explain.fetchExplanation q w
        = ([EvAuth; EvLoadInfo; EvGetRows "Why"; EvRandom], Ok (why row)))
  /\ (forall (q : string) (w : World),
        Spec.normalize q = "why" ->
        (forall row, In row (whySheet w) ->
           Some (rowIndex row)
           <> Explain.randomIndex (mathRandom w) (List.length (whySheet w))) ->
        Explain.fetchExplanation q w
        = ([EvAuth; EvLoadInfo; EvGetRows "Why"; EvRandom],
           Throw (Explain.notAString "why")))
  /\ (forall (q : string) (whyRows : list WhyRow) (explainRows : list Row),
        Spec.normalize q = "why" ->
        (Z.of_nat (List.length whyRows) < 2 ^ 32)%Z ->
        ~ (forall k, (0 <= k <= Z.of_nat (List.length whyRows))%Z ->
             exists row, In row whyRows /\ rowIndex row = k) ->
        exists m,
          (0 <= m < 2 ^ 53)%Z
          /\ snd (Explain.fetchExplanation q
                    (mkWorld whyRows explainRows (m # 9007199254740992)))
             = Throw (Explain.notAString "why")).
Proof.
  split; [intros r n Hn H0 H1; now apply randomIndex_range|].
  split; [exact randomIndex_interval|].
  split; [exact randomIndex_attained|].
  split; [vm_compute; reflexivity|].
  split; [|split].
  - intros q w i before after row Hq Hdraw Hrows Hrow Hbefore.
    rewrite normalize_code in Hq.
    rewrite fetchExplanation_why by (rewrite Hq; reflexivity).
    rewrite Hdraw, Hrows, (find_first_index before after row i Hrow Hbefore).
    reflexivity.
  - intros q w Hq Hmiss. rewrite normalize_code in Hq.
    rewrite fetchExplanation_why by (rewrite Hq; reflexivity).
    destruct (Explain.randomIndex (mathRandom w) (List.length (whySheet w)))
      as [k|] eqn:Ek.
    + rewrite find_none_uncovered; [reflexivity|].
      destruct (Spec.covered (whySheet w) k) eqn:E; [|reflexivity].
      apply covered_true in E. destruct E as [row [Hin Hrow]].
      exfalso. apply (Hmiss row Hin). now rewrite Hrow.
    + replace (find (Explain.sameIndex None) (whySheet w)) with (@None WhyRow);
        [reflexivity|].
      symmetry. clear. induction (whySheet w) as [|row rows IH]; simpl; auto.
  - intros q whyRows explainRows Hq Hlen Hgap. rewrite normalize_code in Hq.
    destruct (uncovered_search whyRows (List.length whyRows)) as [Hall | [k [Hk E]]].
    + exfalso. apply Hgap. intros k Hk. apply covered_true. now apply Hall.
    + destruct (randomIndex_attained (List.length whyRows) k Hlen Hk)
        as [m [Hm Hdraw]].
      exists m. split; [exact Hm|].
      rewrite fetchExplanation_why by (rewrite Hq; reflexivity).
      cbn [snd whySheet mathRandom]. rewrite Hdraw.
      now rewrite find_none_uncovered.
Qed.

Lemma why_mode_draw_can_fail_witness :
  exists m,
    (0 <= m < 2 ^ 53)%Z
    /\ snd (Explain.fetchExplanation " Why "
              (mkWorld [Sample.becauseRow; Sample.whyNotRow] [Sample.maas]
                 (m # 9007199254740992)))
       = Throw (Explain.notAString "why").
Proof.
  apply (proj2 (proj2 (proj2 (proj2 (proj2 (proj2 why_mode_draw_can_fail)))))).
  - reflexivity.
  - vm_compute. reflexivity.
  - intros Hall. destruct (Hall 0%Z) as [row [Hin Hrow]].
    + simpl. lia.
    + simpl in Hin. destruct Hin as [<- | [<- | []]]; discriminate.
Defined.

(* ===================================================================== *)
(** ** Searching the sheet *)
(* ===================================================================== *)

Section Search.

Lemma truthy_arrayFind (sq : string) (toks : list string) :
  truthy (arrayFind (fun keyword => String.eqb keyword sq) toks) = true
  <-> sq <> EmptyString /\ In sq toks.
Proof.
  unfold arrayFind.
  destruct (find (fun keyword => String.eqb keyword sq) toks) as [x|] eqn:E.
  - apply find_some in E. destruct E as [Hin Hx].
    apply String.eqb_eq in Hx. subst x.
    destruct sq as [|c sq]; simpl; split.
    + discriminate.
    + intros [H _]. now contradiction H.
    + intros _. split; [discriminate | exact Hin].
    + reflexivity.
  - simpl. split; [discriminate|]. intros [_ Hin].
    apply (find_none _ _ E) in Hin. now rewrite String.eqb_refl in Hin.
Qed.

(** The callback of the search decides the specification's relation,
    with the alias tokens counted only for a query that is not blank. *)
Lemma rowMatches_AnswersNonBlank (q : string) (row : Row) :
  Explain.rowMatches q row = true <-> Spec.AnswersNonBlank q row.
Proof.
  unfold Explain.rowMatches, Spec.AnswersNonBlank, Spec.aliasTokens.
  rewrite orb_true_iff, String.eqb_eq, truthy_arrayFind.
  rewrite <- !normalize_code. reflexivity.
Qed.

Lemma AnswersNonBlank_Answers (q : string) (row : Row) :
  Spec.AnswersNonBlank q row -> Spec.Answers q row.
Proof. unfold Spec.AnswersNonBlank, Spec.Answers. tauto. Qed.

Lemma Answers_AnswersNonBlank (q : string) (row : Row) :
  Spec.normalize q <> EmptyString ->
  Spec.Answers q row -> Spec.AnswersNonBlank q row.
Proof. unfold Spec.AnswersNonBlank, Spec.Answers. tauto. Qed.

Variable p : Row -> bool.
Variable P : Row -> Prop.
Hypothesis p_decides : forall row, p row = true <-> P row.

Lemma find_FirstWith (rows : list Row) (row : Row) :
  find p rows = Some row <-> Spec.FirstWith P rows row.
Proof.
  split.
  - revert row. induction rows as [|x rows IH]; simpl; intros row H; [discriminate|].
    destruct (p x) eqn:E.
    + inversion H; subst x. exists [], rows. repeat split.
      * now apply p_decides.
      * intros y [].
    + destruct (IH row H) as [before [after [Hrows [Hrow Hbefore]]]].
      exists (x :: before), after. subst rows. repeat split; auto.
      intros y [<- | Hy]; [|now apply Hbefore].
      intros HP. apply p_decides in HP. congruence.
  - intros [before [after [-> [Hrow Hbefore]]]].
    induction before as [|x before IH]; simpl.
    + apply p_decides in Hrow. now rewrite Hrow.
    + destruct (p x) eqn:E.
      * apply p_decides in E. exfalso. apply (Hbefore x); [now left | exact E].
      * apply IH. intros y Hy. apply Hbefore. now right.
Qed.

Lemma find_none_iff (rows : list Row) :
  find p rows = None <-> forall row, In row rows -> ~ P row.
Proof.
  split.
  - intros H row Hin HP. apply p_decides in HP.
    pose proof (find_none _ _ H row Hin). congruence.
  - intros H. induction rows as [|x rows IH]; simpl; [reflexivity|].
    destruct (p x) eqn:E.
    + apply p_decides in E. exfalso. apply (H x); [now left | exact E].
    + apply IH. intros y Hy. apply H. now right.
Qed.

End Search.

(** What the returned string is when the search has found [row]. *)
Lemma fetchExplanation_first (q : string) (w : World) (row : Row) :
  Spec.normalize q <> "why" ->
  Spec.FirstWith (Spec.AnswersNonBlank q) (explainSheet w) row ->
  Explain.fetchExplanation q w
  = ([EvAuth; EvLoadInfo; EvGetRows "Explain"],
     Explain.rbind (Explain.formatRowToMDTable row) (fun s => Ok (VStr s))).
Proof.
  intros Hq Hfirst. rewrite normalize_code in Hq.
  rewrite fetchExplanation_explain by (now apply String.eqb_neq).
  apply (find_FirstWith _ _ (rowMatches_AnswersNonBlank q)) in Hfirst.
  rewrite Hfirst. reflexivity.
Qed.

Lemma fetchExplanation_none (q : string) (w : World) :
  Spec.normalize q <> "why" ->
  (forall row, In row (explainSheet w) -> ~ Spec.AnswersNonBlank q row) ->
  Explain.fetchExplanation q w
  = ([EvAuth; EvLoadInfo; EvGetRows "Explain"], Ok (VStr Explain.usage)).
Proof.
  intros Hq Hnone. rewrite normalize_code in Hq.
  rewrite fetchExplanation_explain by (now apply String.eqb_neq).
  apply (find_none_iff _ _ (rowMatches_AnswersNonBlank q)) in Hnone.
  rewrite Hnone. reflexivity.
Qed.

(* ===================================================================== *)
(** ** Formatting a row *)
(* ===================================================================== *)

Section Formatting.

Lemma tableRows_optional (row : Row) :
  Explain.tableRows row
  = (Explain row, Definition_ row)
      :: filter (fun p => negb (Explain.valueIsEmpty (snd p))) (Spec.candidates row).
Proof.
  unfold Explain.tableRows, Spec.candidates. simpl.
  destruct (Explain.valueIsEmpty (PM row)), (Explain.valueIsEmpty (Team row)),
    (Explain.valueIsEmpty (Contact row)), (Explain.valueIsEmpty (Link row));
    reflexivity.
Qed.

Lemma valueIsEmpty_Shown (v : value) :
  Explain.valueIsEmpty v = false <-> Spec.Shown v.
Proof.
  unfold Explain.valueIsEmpty, Spec.Shown. destruct v as [|s].
  - simpl. split; [discriminate | intros [s [H _]]; discriminate].
  - rewrite orb_false_iff, <- normalize_code. cbn [orEmpty]. split.
    + intros [Hs Hna]. exists s. repeat split.
      * intros ->. discriminate.
      * now apply String.eqb_neq.
    + intros [t [Ht [Hne Hna]]]. inversion Ht; subst t. split.
      * destruct s; [now contradiction Hne | reflexivity].
      * now apply String.eqb_neq.
Qed.

Lemma removeAll_none (s : string) :
  Spec.lineBreaks s = 0 -> removeAll isLineBreak s = s.
Proof.
  induction s as [|c t IH]; simpl; [reflexivity|].
  destruct (isLineBreak c); [discriminate|].
  intros H. now rewrite IH.
Qed.

(** With at most one line break, removing the first one removes all. *)
Lemma sanitize_one_break (s : string) :
  Spec.lineBreaks s <= 1 ->
  trim (removeFirst isLineBreak s) = Spec.sanitized s.
Proof.
  unfold Spec.sanitized. intros H. f_equal.
  induction s as [|c t IH]; simpl in *; [reflexivity|].
  destruct (isLineBreak c).
  - symmetry. apply removeAll_none. lia.
  - now rewrite IH.
Qed.

(** The rows of the optional fields never make the formatting throw:
    their labels are strings and an [undefined] value is never pushed. *)
Lemma rmap_optional_ok (l : list (value * value)) :
  (forall p, In p l -> exists a, fst p = VStr a) ->
  exists lines,
    Explain.rmap Explain.tableLine
      (filter (fun p => negb (Explain.valueIsEmpty (snd p))) l) = Ok lines.
Proof.
  induction l as [|[a b] l IH]; intros Hl; simpl.
  - now exists [].
  - destruct IH as [lines Hlines]; [intros p Hp; apply Hl; now right|].
    destruct (Explain.valueIsEmpty b) eqn:E; simpl; [now exists lines|].
    destruct (Hl (a, b) (or_introl eq_refl)) as [a' Ha]. simpl in Ha. subst a.
    destruct b as [|b']; [discriminate|].
    simpl. rewrite Hlines. simpl. eauto.
Qed.

Lemma formatRowToMDTable_strings (row : Row) (e d : string) :
  Explain row = VStr e ->
  Definition_ row = VStr d ->
  exists rest,
    Explain.formatRowToMDTable row
    = Ok (Explain.tableHeader
            ++ ("| " ++ trim (removeFirst isLineBreak e)
                  ++ " | " ++ trim (removeFirst isLineBreak d) ++ " |")
            ++ rest)
    /\ (rest = EmptyString \/ Spec.StartsWith LF rest).
Proof.
  intros He Hd. unfold Explain.formatRowToMDTable.
  rewrite tableRows_optional, He, Hd.
  destruct (rmap_optional_ok (Spec.candidates row)) as [lines Hlines].
  { unfold Spec.candidates. intros p Hp. simpl in Hp.
    destruct Hp as [<- | [<- | [<- | [<- | []]]]]; simpl; eauto. }
  cbn [Explain.rmap Explain.rbind Explain.tableLine Explain.sanitizeValue fst snd].
  rewrite Hlines. cbn [Explain.rbind].
  destruct lines as [|l1 lines].
  - exists EmptyString. split; [|now left].
    cbn [join]. now rewrite append_empty_r.
  - exists (LF ++ join LF (l1 :: lines)). split.
    + cbn [join]. reflexivity.
    + right. now exists (join LF (l1 :: lines)).
Qed.

Lemma rmap_snoc {A B} (f : A -> result B) (xs : list A) (x : A)
    (ys : list B) (y : B) :
  Explain.rmap f xs = Ok ys -> f x = Ok y ->
  Explain.rmap f (xs ++ [x])%list = Ok (ys ++ [y])%list.
Proof.
  revert ys. induction xs as [|a xs IH]; intros ys Hxs Hx; simpl in *.
  - inversion Hxs. rewrite Hx. reflexivity.
  - destruct (f a) as [b|e]; [|discriminate]. simpl in *.
    destruct (Explain.rmap f xs) as [bs|e]; [|discriminate]. simpl in *.
    inversion Hxs. rewrite (IH bs eq_refl Hx). reflexivity.
Qed.

Lemma join_snoc (sep : string) (xs : list string) (x : string) :
  xs <> [] -> join sep (xs ++ [x])%list = join sep xs ++ sep ++ x.
Proof.
  induction xs as [|a [|b xs] IH]; intros Hne.
  - contradiction.
  - reflexivity.
  - change (a ++ sep ++ join sep ((b :: xs) ++ [x])%list
            = (a ++ sep ++ join sep (b :: xs)) ++ sep ++ x).
    rewrite IH by discriminate. now rewrite !append_assoc.
Qed.

(** One push of [formatRowToMDTable], seen on the text that is joined
    in the end. *)
Lemma push_field (rows : list (value * value)) (lines : list string)
    (label : string) (v : value) :
  Explain.sanitizeValue (VStr label) = Ok label ->
  Explain.rmap Explain.tableLine rows = Ok lines ->
  lines <> [] ->
  exists lines' piece,
    Explain.rmap Explain.tableLine
      (if negb (Explain.valueIsEmpty v)
       then (rows ++ [(VStr label, v)])%list else rows)
    = Ok lines'
    /\ lines' <> []
    /\ join LF lines' = join LF lines ++ piece
    /\ Spec.FieldLine label v piece.
Proof.
  intros Hlabel Hrows Hne.
  destruct (Explain.valueIsEmpty v) eqn:E; cbn [negb].
  - exists lines, EmptyString. repeat split; try assumption.
    + now rewrite append_empty_r.
    + right. split; [|reflexivity].
      intros H. apply valueIsEmpty_Shown in H. congruence.
  - destruct v as [|s]; [discriminate|].
    exists (lines ++ [("| " ++ label ++ " | "
                         ++ trim (removeFirst isLineBreak s) ++ " |")%string])%list,
           (LF ++ "| " ++ label ++ " | "
               ++ trim (removeFirst isLineBreak s) ++ " |").
    split; [|split; [|split]].
    + apply rmap_snoc; [assumption|].
      unfold Explain.tableLine. cbn [fst snd]. rewrite Hlabel. reflexivity.
    + destruct lines; discriminate.
    + now apply join_snoc.
    + left. split; [now apply valueIsEmpty_Shown|].
      eexists. split; reflexivity.
Qed.

(** The text of the table of a row, field by field. *)
Lemma formatRowToMDTable_fields (row : Row) (e d : string) :
  Explain row = VStr e ->
  Definition_ row = VStr d ->
  exists pm team contact link,
    Explain.formatRowToMDTable row
    = Ok (Explain.tableHeader
            ++ ("| " ++ trim (removeFirst isLineBreak e)
                  ++ " | " ++ trim (removeFirst isLineBreak d) ++ " |")
            ++ pm ++ team ++ contact ++ link)
    /\ Spec.FieldLine "PM" (PM row) pm
    /\ Spec.FieldLine "Team" (Team row) team
    /\ Spec.FieldLine "Contact channel" (Contact row) contact
    /\ Spec.FieldLine "Read more" (Link row) link.
Proof.
  intros He Hd. unfold Explain.formatRowToMDTable, Explain.tableRows. cbv zeta.
  rewrite He, Hd.
  assert (H0 : Explain.rmap Explain.tableLine [(VStr e, VStr d)]
               = Ok ["| " ++ trim (removeFirst isLineBreak e)
                       ++ " | " ++ trim (removeFirst isLineBreak d) ++ " |"])
    by reflexivity.
  destruct (push_field _ _ "PM" (PM row) eq_refl H0 ltac:(discriminate))
    as [l1 [pm [H1 [N1 [J1 F1]]]]].
  destruct (push_field _ _ "Team" (Team row) eq_refl H1 N1)
    as [l2 [team [H2 [N2 [J2 F2]]]]].
  destruct (push_field _ _ "Contact channel" (Contact row) eq_refl H2 N2)
    as [l3 [contact [H3 [N3 [J3 F3]]]]].
  destruct (push_field _ _ "Read more" (Link row) eq_refl H3 N3)
    as [l4 [link [H4 [N4 [J4 F4]]]]].
  exists pm, team, contact, link. split; [|tauto].
  rewrite H4. cbn [Explain.rbind]. rewrite J4, J3, J2, J1. cbn [join].
  now rewrite !append_assoc.
Qed.

End Formatting.

(* ===================================================================== *)
(** ** Looking a term up *)
(* ===================================================================== *)

(** C2, at a blank query.  The row [juju] has no alias, so the one token
    of its alias field is the empty string, which equals the normalized
    query [" "]: the row answers the query in the specification's
    words, and it is the first such row.  The search does not count an
    empty keyword, and the usage string comes back instead of the
    formatting of the row. *)
Lemma blank_query_ignores_alias_tokens :
  Spec.normalize " " <> "why"
  /\ Spec.FirstWith (Spec.Answers " ") (explainSheet Sample.jujuWorld) Sample.juju
  /\ snd (Explain.fetchExplanation " " Sample.jujuWorld) = Ok (VStr Explain.usage)
  /\ Explain.rbind (Explain.formatRowToMDTable Sample.juju) (fun s => Ok (VStr s))
     <> Ok (VStr Explain.usage).
Proof.
  split; [discriminate|]. split; [|split].
  - exists [], []. repeat split.
    + right. vm_compute. now left.
    + intros x [].
  - reflexivity.
  - vm_compute. discriminate.
Qed.

(** C2, as the code has it.  For every query outside the why mode and
    every list of rows, [fetchExplanation] reads the sheet [Explain]
    and returns the formatting of the first row, in fetched order,
    whose normalized [Explain] field equals the normalized query or,
    when the normalized query is not empty, one of whose comma-separated
    alias tokens (each trimmed and lower-cased) equals it; when no row
    is such, it returns the usage string verbatim.  One of the two cases
    always applies, and for a query that is not blank the rows so
    selected are those the specification describes. *)
Theorem fetchExplanation_first_match
  (q : string) (w : World) (Hq : Spec.normalize q <> "why") :
  (forall row,
      Spec.FirstWith (Spec.AnswersNonBlank q) (explainSheet w) row ->
      Explain.fetchExplanation q w
      = ([EvAuth; EvLoadInfo; EvGetRows "Explain"],
         Explain.rbind (Explain.formatRowToMDTable row) (fun s => Ok (VStr s))))
  /\ ((forall row, In row (explainSheet w) -> ~ Spec.AnswersNonBlank q row) ->
      Explain.fetchExplanation q w
      = ([EvAuth; EvLoadInfo; EvGetRows "Explain"], Ok (VStr Explain.usage)))
  /\ ((exists row, Spec.FirstWith (Spec.AnswersNonBlank q) (explainSheet w) row)
      \/ (forall row, In row (explainSheet w) -> ~ Spec.AnswersNonBlank q row))
  /\ (Spec.normalize q <> EmptyString ->
      forall row, Spec.AnswersNonBlank q row <-> Spec.Answers q row).
Proof.
  split; [|split; [|split]].
  - intros row Hrow. now apply fetchExplanation_first.
  - intros Hnone. now apply fetchExplanation_none.
  - destruct (find (Explain.rowMatches q) (explainSheet w)) as [row|] eqn:E.
    + left. exists row.
      now apply (find_FirstWith _ _ (rowMatches_AnswersNonBlank q)).
    + right. now apply (find_none_iff _ _ (rowMatches_AnswersNonBlank q)).
  - intros Hne row. split.
    + apply AnswersNonBlank_Answers.
    + now apply Answers_AnswersNonBlank.
Qed.

Lemma fetchExplanation_first_match_witness :
  Explain.fetchExplanation " Metal " Sample.world
  = ([EvAuth; EvLoadInfo; EvGetRows "Explain"],
     Explain.rbind (Explain.formatRowToMDTable Sample.maas) (fun s => Ok (VStr s))).
Proof.
  apply (proj1 (fetchExplanation_first_match " Metal " Sample.world
                  ltac:(discriminate))).
  exists [], [Sample.juju]. repeat split.
  - right. split; [discriminate | vm_compute; now left].
  - intros x [].
Defined.

(** C3, at the query [" maas "].  The query matches the [Explain] field
    of the first row; the table that comes back opens with the header
    [| Title | Description |], not with [| Explain | Definition |]. *)
Lemma table_header_is_title_description :
  Spec.normalize (orEmpty (Explain Sample.maas)) = Spec.normalize " maas "
  /\ exists s,
       snd (Explain.fetchExplanation " maas " Sample.world) = Ok (VStr s)
       /\ Spec.StartsWith "| Title | Description |" s
       /\ ~ Spec.StartsWith "| Explain | Definition |" s.
Proof.
  split; [reflexivity|].
  eexists. split; [vm_compute; reflexivity|]. split.
  - eexists. reflexivity.
  - intros [rest H]. discriminate H.
Qed.

(** C3, as the code has it.  For every query outside the why mode that
    matches the [Explain] field of some row (whatever the letter case
    and the surrounding whitespace), there is a first row answering the
    query, and when its [Explain] and [Definition] cells are strings
    with at most one line break each, [fetchExplanation] returns a
    markdown table that opens with the header [| Title | Description |]
    and the separator [|--|--|], followed by the sanitized [Explain] and
    [Definition] values of that row as the first data row; what follows
    is empty or starts on a new line. *)
Theorem explain_match_table
  (q : string) (w : World) (row0 : Row)
  (Hq : Spec.normalize q <> "why")
  (Hin : In row0 (explainSheet w))
  (Hmatch : Spec.normalize (orEmpty (Explain row0)) = Spec.normalize q) :
  exists row,
    Spec.FirstWith (Spec.AnswersNonBlank q) (explainSheet w) row
    /\ forall e d,
         Explain row = VStr e -> Definition_ row = VStr d ->
         Spec.lineBreaks e <= 1 -> Spec.lineBreaks d <= 1 ->
         exists rest,
           snd (Explain.fetchExplanation q w)
           = Ok (VStr ("| Title | Description |" ++ LF ++ "|--|--|" ++ LF
                       ++ "| " ++ Spec.sanitized e ++ " | " ++ Spec.sanitized d ++ " |"
                       ++ rest))
           /\ (rest = EmptyString \/ Spec.StartsWith LF rest).
Proof.
  destruct (find (Explain.rowMatches q) (explainSheet w)) as [row|] eqn:E.
  - apply (find_FirstWith _ _ (rowMatches_AnswersNonBlank q)) in E.
    exists row. split; [exact E|].
    intros e d He Hd Hbe Hbd.
    rewrite (fetchExplanation_first q w row Hq E).
    destruct (formatRowToMDTable_strings row e d He Hd) as [rest [Hfmt Hrest]].
    exists rest. split; [|exact Hrest].
    cbn [snd]. rewrite Hfmt.
    rewrite (sanitize_one_break e Hbe), (sanitize_one_break d Hbd).
    cbn [Explain.rbind]. do 2 f_equal.
    unfold Explain.tableHeader. now rewrite !append_assoc.
  - exfalso.
    apply (proj1 (find_none_iff _ _ (rowMatches_AnswersNonBlank q) _) E row0 Hin).
    now left.
Qed.

Lemma explain_match_table_witness :
  exists row,
    Spec.FirstWith (Spec.AnswersNonBlank "MAAS") (explainSheet Sample.world) row
    /\ forall e d,
         Explain row = VStr e -> Definition_ row = VStr d ->
         Spec.lineBreaks e <= 1 -> Spec.lineBreaks d <= 1 ->
         exists rest,
           snd (Explain.fetchExplanation "MAAS" Sample.world)
           = Ok (VStr ("| Title | Description |" ++ LF ++ "|--|--|" ++ LF
                       ++ "| " ++ Spec.sanitized e ++ " | " ++ Spec.sanitized d ++ " |"
                       ++ rest))
           /\ (rest = EmptyString \/ Spec.StartsWith LF rest).
Proof.
  apply (explain_match_table "MAAS" Sample.world Sample.maas).
  - discriminate.
  - simpl. now left.
  - reflexivity.
Defined.

(** C4, at a value with two line breaks.  Only the first line break of
    a cell is removed: the definition of the row [haiku] keeps its
    second one, where removing every line break gives one line, and the
    line break reaches the table that is returned. *)
Theorem sanitizeValue_keeps_second_line_break :
  Explain.sanitizeValue (Definition_ Sample.haiku)
  = Ok ("line oneline two" ++ LF ++ "line three")
  /\ Spec.sanitized (orEmpty (Definition_ Sample.haiku))
     = "line oneline twoline three"
  /\ snd (Explain.fetchExplanation "haiku" Sample.haikuWorld)
     = Ok (VStr ("| Title | Description |" ++ LF ++ "|--|--|" ++ LF
                 ++ "| Haiku | line oneline two" ++ LF ++ "line three |")).
Proof. repeat split; vm_compute; reflexivity. Qed.

(** C5. For every row whose [Explain] and [Definition] cells are
    strings, the table that [formatRowToMDTable] returns is the header,
    the line of the sanitized [Explain] and [Definition] values, and
    then, in this order, what the fields PM, Team, Contact and Link
    add: a line of its own, [| label | sanitized value |] under the
    labels [PM], [Team], [Contact channel] and [Read more], when the
    value is a non-empty string whose trimmed, lower-cased form is not
    ["n/a"], and nothing otherwise; so a field adds text to the table
    if and only if it is such a value.  This is the table that a query
    gets whose first answering row it is.  The values ["N/A"], ["n/a "]
    and the empty string are left out, as is an [undefined] cell, and
    ["0"] is shown. *)
Theorem optional_fields_shown :
  (forall (row : Row) (e d : string),
      Explain row = VStr e ->
      Definition_ row = VStr d ->
      exists pm team contact link,
        Explain.formatRowToMDTable row
        = Ok ("| Title | Description |" ++ LF ++ "|--|--|" ++ LF
              ++ "| " ++ trim (removeFirst isLineBreak e)
              ++ " | " ++ trim (removeFirst isLineBreak d) ++ " |"
              ++ pm ++ team ++ contact ++ link)
        /\ Spec.FieldLine "PM" (PM row) pm
        /\ Spec.FieldLine "Team" (Team row) team
        /\ Spec.FieldLine "Contact channel" (Contact row) contact
        /\ Spec.FieldLine "Read more" (Link row) link)
  /\ (forall label v line,
         Spec.FieldLine label v line ->
         (line <> EmptyString <-> Spec.Shown v)
         /\ (line <> EmptyString ->
             Spec.StartsWith (LF ++ "| " ++ label ++ " | ") line))
  /\ (forall (q : string) (w : World) (row : Row),
         Spec.normalize q <> "why" ->
         Spec.FirstWith (Spec.AnswersNonBlank q) (explainSheet w) row ->
         snd (Explain.fetchExplanation q w)
         = Explain.rbind (Explain.formatRowToMDTable row) (fun s => Ok (VStr s)))
  /\ Explain.valueIsEmpty (VStr "N/A") = true
  /\ Explain.valueIsEmpty (VStr "n/a ") = true
  /\ Explain.valueIsEmpty (VStr EmptyString) = true
  /\ Explain.valueIsEmpty VUndef = true
  /\ Explain.valueIsEmpty (VStr "0") = false
  /\ Explain.formatRowToMDTable Sample.juju
     = Ok ("| Title | Description |" ++ LF ++ "|--|--|" ++ LF
           ++ "| Juju | Juju is an operator framework. |" ++ LF
           ++ "| Contact channel | 0 |")
  /\ Explain.formatRowToMDTable Sample.maas
     = Ok ("| Title | Description |" ++ LF ++ "|--|--|" ++ LF
           ++ "| MAAS | MAAS is a fast provisioning tool. |" ++ LF
           ++ "| PM | Anton Smith |" ++ LF
           ++ "| Contact channel | ~MAAS |" ++ LF
           ++ "| Read more | https://maas.io |").
Proof.
  split; [|split; [|split; [|repeat split; reflexivity]]].
  - intros row e d He Hd.
    destruct (formatRowToMDTable_fields row e d He Hd)
      as [pm [team [contact [link [H F]]]]].
    exists pm, team, contact, link. split; [|exact F].
    rewrite H. unfold Explain.tableHeader. now rewrite !append_assoc.
  - intros label v line [[Hshown [s [_ ->]]] | [Hnot ->]].
    + split; [split; [intros _; exact Hshown | intros _; discriminate]|].
      intros _. eexists. rewrite !append_assoc. reflexivity.
    + split; [split; [intros H; now contradiction H | intros H; contradiction]|].
      intros H. now contradiction H.
  - intros q w row Hq Hrow. now rewrite (fetchExplanation_first q w row Hq Hrow).
Qed.

Lemma optional_fields_shown_witness :
  exists pm team contact link,
    Explain.formatRowToMDTable Sample.juju
    = Ok ("| Title | Description |" ++ LF ++ "|--|--|" ++ LF
          ++ "| " ++ trim (removeFirst isLineBreak "Juju")
          ++ " | " ++ trim (removeFirst isLineBreak "Juju is an operator framework.")
          ++ " |" ++ pm ++ team ++ contact ++ link)
    /\ Spec.FieldLine "PM" (PM Sample.juju) pm
    /\ Spec.FieldLine "Team" (Team Sample.juju) team
    /\ Spec.FieldLine "Contact channel" (Contact Sample.juju) contact
    /\ Spec.FieldLine "Read more" (Link Sample.juju) link.
Proof.
  apply (proj1 optional_fields_shown Sample.juju
           "Juju" "Juju is an operator framework.");
    reflexivity.
Defined.

(** C6, at an alias that is the word of the why mode and at a blank
    query.  The row [reason] has the alias ["why"] and is the only row:
    the query ["why"] is one of its alias tokens, but it is answered
    from the sheet [Why] and not with the table that the query
    ["reason"] gets.  The row [juju] has the empty alias token: the
    blank query gets the usage string, the query ["juju"] the table. *)
Lemma alias_query_differs :
  (In (Spec.normalize "why") (Spec.aliasTokens Sample.reason)
   /\ Spec.normalize "reason" = Spec.normalize (orEmpty (Explain Sample.reason))
   /\ Spec.FirstWith (fun r => Spec.Answers "why" r \/ Spec.Answers "reason" r)
        (explainSheet Sample.reasonWorld) Sample.reason
   /\ Explain.fetchExplanation "why" Sample.reasonWorld
      <> Explain.fetchExplanation "reason" Sample.reasonWorld)
  /\ (In (Spec.normalize " ") (Spec.aliasTokens Sample.juju)
      /\ Spec.normalize "juju" = Spec.normalize (orEmpty (Explain Sample.juju))
      /\ Spec.FirstWith (fun r => Spec.Answers " " r \/ Spec.Answers "juju" r)
           (explainSheet Sample.jujuWorld) Sample.juju
      /\ Explain.fetchExplanation " " Sample.jujuWorld
         <> Explain.fetchExplanation "juju" Sample.jujuWorld).
Proof.
  split; repeat split.
  - vm_compute. now left.
  - exists [], []. repeat split.
    + right. now left.
    + intros x [].
  - vm_compute. discriminate.
  - vm_compute. now left.
  - exists [], []. repeat split.
    + right. now left.
    + intros x [].
  - vm_compute. discriminate.
Qed.

(** C6, as the code has it.  For every list of rows and every row [R]
    of it, a query equal after normalization to one of the alias tokens
    of [R] gets the same result as a query equal after normalization to
    the [Explain] field of [R], provided [R] is the first row answering
    either query, neither query is the word of the why mode, and the
    alias token is not empty. *)
Theorem alias_query_same_as_explain_query
  (q1 q2 : string) (w : World) (R : Row)
  (Hwhy1 : Spec.normalize q1 <> "why")
  (Hwhy2 : Spec.normalize q2 <> "why")
  (Hblank : Spec.normalize q1 <> EmptyString)
  (Halias : In (Spec.normalize q1) (Spec.aliasTokens R))
  (Hexplain : Spec.normalize q2 = Spec.normalize (orEmpty (Explain R)))
  (Hfirst : Spec.FirstWith (fun r => Spec.Answers q1 r \/ Spec.Answers q2 r)
              (explainSheet w) R) :
  Explain.fetchExplanation q1 w = Explain.fetchExplanation q2 w.
Proof.
  destruct Hfirst as [before [after [Hrows [_ Hbefore]]]].
  rewrite (fetchExplanation_first q1 w R Hwhy1).
  - rewrite (fetchExplanation_first q2 w R Hwhy2); [reflexivity|].
    exists before, after. repeat split; [exact Hrows | now left |].
    intros x Hx HA. apply (Hbefore x Hx). right.
    now apply AnswersNonBlank_Answers.
  - exists before, after. repeat split; [exact Hrows | right; now split |].
    intros x Hx HA. apply (Hbefore x Hx). left.
    now apply AnswersNonBlank_Answers.
Qed.

Lemma alias_query_same_as_explain_query_witness :
  Explain.fetchExplanation "Metal as a service" Sample.world
  = Explain.fetchExplanation "maas" Sample.world.
Proof.
  apply (alias_query_same_as_explain_query
           "Metal as a service" "maas" Sample.world Sample.maas).
  - discriminate.
  - discriminate.
  - discriminate.
  - vm_compute. right. now left.
  - reflexivity.
  - exists [], [Sample.juju]. repeat split.
    + right. left. reflexivity.
    + intros x [].
Defined.

(* ===================================================================== *)
(** ** Loading the scripts *)
(* ===================================================================== *)

(** C9, at an environment without the token of the meet command.  The
    meet script writes its diagnostic to the console and is loaded all
    the same: its handlers are registered, and startup is not aborted. *)
Lemma missing_meet_token_still_registers :
  Sample.envWithoutMeetToken "MATTERMOST_TOKEN_CMD_MEET" = VUndef
  /\ Meet.startup Sample.envWithoutMeetToken
     = Registered ["Missing MATTERMOST_TOKEN_CMD_MEET in environment"]
                  ["respond meet"; "POST /hubot/meet"]
  /\ forall diagnostic, Meet.startup Sample.envWithoutMeetToken <> Aborted diagnostic.
Proof. repeat split. intros diagnostic. discriminate. Qed.

(** C9, as the code has it.  For every startup configuration in which
    the spreadsheet ID, the service-account email, the service-account
    private key or the token of the explain command is missing, loading
    the explain script aborts with a diagnostic and registers no
    handler; when the token of the meet command is missing, loading the
    meet script writes a diagnostic to the console and goes on to
    register its handlers. *)
Theorem startup_missing_configuration
  (env : Env) (key : string) (Hmissing : env key = VUndef) :
  (In key ["HUBOT_SPREADSHEET_ID"; "HUBOT_SPREADSHEET_CLIENT_EMAIL";
           "HUBOT_SPREADSHEET_PRIVATE_KEY"; "MATTERMOST_TOKEN_CMD_EXPLAIN"] ->
   exists diagnostic, Explain.startup env = Aborted diagnostic)
  /\ (key = "MATTERMOST_TOKEN_CMD_MEET" ->
      Meet.startup env
      = Registered ["Missing MATTERMOST_TOKEN_CMD_MEET in environment"]
                   ["respond meet"; "POST /hubot/meet"]).
Proof.
  split.
  - intros Hin. unfold Explain.startup, Utils.requiredEnvs. simpl in Hin.
    destruct Hin as [<- | [<- | [<- | [<- | []]]]]; rewrite Hmissing; simpl;
      repeat match goal with
             | |- context [falsy ?v] => destruct (falsy v)
             end; simpl; eauto.
  - intros ->. unfold Meet.startup. now rewrite Hmissing.
Qed.

Lemma startup_missing_configuration_witness :
  (exists diagnostic, Explain.startup Sample.envWithoutPrivateKey = Aborted diagnostic)
  /\ Meet.startup Sample.envWithoutMeetToken
     = Registered ["Missing MATTERMOST_TOKEN_CMD_MEET in environment"]
                  ["respond meet"; "POST /hubot/meet"].
Proof.
  split.
  - apply (proj1 (startup_missing_configuration
                    Sample.envWithoutPrivateKey "HUBOT_SPREADSHEET_PRIVATE_KEY"
                    eq_refl)).
    simpl. tauto.
  - apply (proj2 (startup_missing_configuration
                    Sample.envWithoutMeetToken "MATTERMOST_TOKEN_CMD_MEET"
                    eq_refl)).
    reflexivity.
Defined.

(* ===================================================================== *)
(** ** More on cells: trimming and line breaks *)
(* ===================================================================== *)

Section Cells.

Lemma trimStart_length (s : string) :
  String.length (trimStart s) <= String.length s.
Proof.
  induction s as [|c t IH]; simpl; [lia|].
  destruct (isWhiteSpace c); simpl; lia.
Qed.

Lemma trimStart_fixed (c : ascii) (t : string) :
  trimStart (String c t) = String c t -> isWhiteSpace c = false.
Proof.
  simpl. destruct (isWhiteSpace c); [|reflexivity].
  intros H. pose proof (trimStart_length t) as Hlen.
  rewrite H in Hlen. simpl in Hlen. lia.
Qed.

Lemma trimStart_idem (s : string) : trimStart (trimStart s) = trimStart s.
Proof.
  induction s as [|c t IH]; simpl; [reflexivity|].
  destruct (isWhiteSpace c) eqn:E; [exact IH|].
  simpl. now rewrite E.
Qed.

Lemma trimEnd_cons (c : ascii) (t : string) :
  trimEnd (String c t)
  = match trimEnd t with
    | EmptyString => if isWhiteSpace c then EmptyString else String c EmptyString
    | String _ _ as t' => String c t'
    end.
Proof. reflexivity. Qed.

Lemma trimEnd_idem (s : string) : trimEnd (trimEnd s) = trimEnd s.
Proof.
  induction s as [|c t IH]; [reflexivity|].
  rewrite (trimEnd_cons c t).
  destruct (trimEnd t) as [|a u] eqn:E.
  - destruct (isWhiteSpace c) eqn:Ec; simpl; [reflexivity | now rewrite Ec].
  - rewrite trimEnd_cons, IH. reflexivity.
Qed.

Lemma trimStart_trimEnd (t : string) :
  trimStart t = t -> trimStart (trimEnd t) = trimEnd t.
Proof.
  destruct t as [|c t]; [reflexivity|].
  intros H. apply trimStart_fixed in H. rewrite trimEnd_cons.
  destruct (trimEnd t); rewrite ?H; simpl; rewrite ?H; reflexivity.
Qed.

Lemma trim_idem (s : string) : trim (trim s) = trim s.
Proof.
  unfold trim.
  rewrite (trimStart_trimEnd (trimStart s) (trimStart_idem s)).
  apply trimEnd_idem.
Qed.

Lemma trimEnd_length (s : string) :
  String.length (trimEnd s) <= String.length s.
Proof.
  induction s as [|c t IH]; simpl; [lia|].
  destruct (trimEnd t); [destruct (isWhiteSpace c)|]; simpl in *; lia.
Qed.

Lemma removeFirst_length (cls : ascii -> bool) (s : string) :
  String.length (removeFirst cls s) <= String.length s.
Proof.
  induction s as [|c t IH]; simpl; [lia|].
  destruct (cls c); simpl; lia.
Qed.

Lemma lineBreaks_trimStart (s : string) :
  Spec.lineBreaks (trimStart s) <= Spec.lineBreaks s.
Proof.
  induction s as [|c t IH]; simpl; [lia|].
  destruct (isWhiteSpace c); simpl; lia.
Qed.

Lemma lineBreaks_trimEnd (s : string) :
  Spec.lineBreaks (trimEnd s) <= Spec.lineBreaks s.
Proof.
  induction s as [|c t IH]; simpl; [lia|].
  destruct (trimEnd t); [destruct (isWhiteSpace c)|]; simpl in *; lia.
Qed.

Lemma lineBreaks_removeFirst (s : string) :
  Spec.lineBreaks (removeFirst isLineBreak s) = pred (Spec.lineBreaks s).
Proof.
  induction s as [|c t IH]; simpl; [reflexivity|].
  destruct (isLineBreak c) eqn:E; simpl; [reflexivity|].
  now rewrite E.
Qed.

Lemma trimEnd_empty (c : ascii) (t : string) :
  trimEnd (String c t) = EmptyString -> isWhiteSpace c = true.
Proof.
  simpl. destruct (trimEnd t); [|discriminate].
  destruct (isWhiteSpace c); [reflexivity | discriminate].
Qed.

(** A string that trims to nothing is already gone after [trimStart]. *)
Lemma trim_empty_trimStart (s : string) :
  trim s = EmptyString -> trimStart s = EmptyString.
Proof.
  unfold trim. intros H.
  destruct (trimStart s) as [|c t] eqn:E; [reflexivity|].
  apply trimEnd_empty in H.
  pose proof (trimStart_idem s) as Hidem. rewrite E in Hidem.
  apply trimStart_fixed in Hidem. congruence.
Qed.

Lemma trimStart_empty_removeFirst (cls : ascii -> bool) (s : string) :
  trimStart s = EmptyString -> trimStart (removeFirst cls s) = EmptyString.
Proof.
  induction s as [|c t IH]; simpl; [reflexivity|].
  destruct (isWhiteSpace c) eqn:E; [|discriminate].
  intros H. destruct (cls c); [exact H|].
  simpl. rewrite E. now apply IH.
Qed.

End Cells.

(** X6. For every string cell, [sanitizeValue] returns a string that is
    trimmed (trimming it again changes nothing), that is no longer than
    the cell, and that has lost at least one of the cell's line breaks
    when there was one; an [undefined] cell makes it throw. *)
Theorem sanitizeValue_trimmed :
  (forall s : string,
      exists out,
        Explain.sanitizeValue (VStr s) = Ok out
        /\ trim out = out
        /\ String.length out <= String.length s
        /\ Spec.lineBreaks out <= pred (Spec.lineBreaks s))
  /\ Explain.sanitizeValue VUndef = Throw (Explain.notAString "replace").
Proof.
  split; [|reflexivity].
  intros s. exists (trim (removeFirst isLineBreak s)).
  split; [reflexivity|]. split; [apply trim_idem|]. split.
  - unfold trim.
    pose proof (trimEnd_length (trimStart (removeFirst isLineBreak s))).
    pose proof (trimStart_length (removeFirst isLineBreak s)).
    pose proof (removeFirst_length isLineBreak s). lia.
  - unfold trim. rewrite <- lineBreaks_removeFirst.
    pose proof (lineBreaks_trimEnd (trimStart (removeFirst isLineBreak s))).
    pose proof (lineBreaks_trimStart (removeFirst isLineBreak s)). lia.
Qed.

(** X7. A cell that is not empty but holds only whitespace is not
    treated as empty: [valueIsEmpty] is false for it, so the optional
    field is listed, and the value written in the table is the empty
    string. *)
Theorem whitespace_cell_is_shown
  (s : string) (Hne : s <> EmptyString) (Hblank : trim s = EmptyString) :
  Explain.valueIsEmpty (VStr s) = false
  /\ Spec.Shown (VStr s)
  /\ Explain.sanitizeValue (VStr s) = Ok EmptyString.
Proof.
  assert (Hshown : Spec.Shown (VStr s)).
  { exists s. repeat split; [exact Hne|].
    unfold Spec.normalize. rewrite Hblank. discriminate. }
  split; [now apply valueIsEmpty_Shown|]. split; [exact Hshown|].
  unfold Explain.sanitizeValue, trim.
  rewrite (trimStart_empty_removeFirst isLineBreak s (trim_empty_trimStart s Hblank)).
  reflexivity.
Qed.

Lemma whitespace_cell_is_shown_witness :
  Explain.valueIsEmpty (VStr "  ") = false
  /\ Spec.Shown (VStr "  ")
  /\ Explain.sanitizeValue (VStr "  ") = Ok EmptyString.
Proof.
  apply (whitespace_cell_is_shown "  ").
  - discriminate.
  - reflexivity.
Defined.

(* ===================================================================== *)
(** ** More on the lookup *)
(* ===================================================================== *)

Lemma formatRowToMDTable_undefined (row : Row) :
  Explain row = VUndef \/ Definition_ row = VUndef ->
  exists e, Explain.formatRowToMDTable row = Throw e.
Proof.
  intros H. unfold Explain.formatRowToMDTable.
  rewrite tableRows_optional.
  cbn [Explain.rmap Explain.tableLine fst snd].
  destruct H as [-> | ->].
  - eexists. reflexivity.
  - destruct (Explain row); eexists; reflexivity.
Qed.

(** X4. Formatting a row throws exactly when its [Explain] or its
    [Definition] cell is [undefined]; the optional fields never make it
    throw, whatever they hold. *)
Theorem formatRowToMDTable_throws_iff (row : Row) :
  (exists e, Explain.formatRowToMDTable row = Throw e)
  <-> Explain row = VUndef \/ Definition_ row = VUndef.
Proof.
  split.
  - intros [e He].
    destruct (Explain row) as [|x] eqn:Ex; [now left|].
    destruct (Definition_ row) as [|d] eqn:Ed; [now right|].
    destruct (formatRowToMDTable_strings row x d Ex Ed) as [rest [H _]].
    congruence.
  - apply formatRowToMDTable_undefined.
Qed.

(** X5. Outside the why mode, the lookup returns a string exactly when
    the backend accepts the authentication, loads the document, has a
    sheet [Explain] and answers the request for its rows, and the row
    that the search selects, if there is one, has an [Explain] and a
    [Definition] cell; in every other case it throws.  In particular it
    never returns [undefined]: the outcome is a string or an error. *)
Theorem fetchExplanation_returns_string
  (q : string) (o : Outside) (Hq : Spec.normalize q <> "why") :
  ((exists s, snd (Explain.fetchExplanation q o) = Ok (VStr s))
   <-> authError (backend o) = None
       /\ loadInfoError (backend o) = None
       /\ explainState (backend o) = SheetAnswers
       /\ forall row,
            find (Explain.rowMatches q) (explainSheet (world o)) = Some row ->
            Explain row <> VUndef /\ Definition_ row <> VUndef)
  /\ ((exists s, snd (Explain.fetchExplanation q o) = Ok (VStr s))
      \/ (exists e, snd (Explain.fetchExplanation q o) = Throw e)).
Proof.
  rewrite normalize_code in Hq. apply String.eqb_neq in Hq.
  rewrite fetchExplanation_outside, Hq.
  destruct (authError (backend o)) as [err|].
  { cbn [snd]. split; [|right; eauto].
    split; [intros [s H]; discriminate | intros [H _]; discriminate]. }
  destruct (loadInfoError (backend o)) as [err|].
  { cbn [snd]. split; [|right; eauto].
    split; [intros [s H]; discriminate | intros [_ [H _]]; discriminate]. }
  destruct (explainState (backend o)) as [|err|].
  { cbn [snd]. split; [|right; eauto].
    split; [intros [s H]; discriminate | intros [_ [_ [H _]]]; discriminate]. }
  { cbn [snd]. split; [|right; eauto].
    split; [intros [s H]; discriminate | intros [_ [_ [H _]]]; discriminate]. }
  cbn [snd].
  destruct (find (Explain.rowMatches q) (explainSheet (world o))) as [row|].
  - destruct (Explain.formatRowToMDTable row) as [t|e] eqn:E.
    + split; [|left; eauto].
      split; [|eauto]. intros _.
      split; [reflexivity|]. split; [reflexivity|]. split; [reflexivity|].
      intros row0 H. inversion H; subst row0. split.
      * intros Hx.
        destruct (formatRowToMDTable_undefined row (or_introl Hx)). congruence.
      * intros Hd.
        destruct (formatRowToMDTable_undefined row (or_intror Hd)). congruence.
    + split; [|right; eauto].
      split; [intros [s H]; discriminate|].
      intros [_ [_ [_ H]]]. exfalso.
      destruct (H row eq_refl) as [Hx Hd].
      destruct (Explain row) as [|x] eqn:Ex; [congruence|].
      destruct (Definition_ row) as [|d] eqn:Ed; [congruence|].
      destruct (formatRowToMDTable_strings row x d Ex Ed) as [rest [H' _]].
      congruence.
  - split; [|left; eauto].
    split; [|eauto]. intros _.
    split; [reflexivity|]. split; [reflexivity|]. split; [reflexivity|].
    intros row H. discriminate.
Qed.

Lemma fetchExplanation_returns_string_witness :
  exists s, snd (Explain.fetchExplanation "juju" Sample.world) = Ok (VStr s).
Proof.
  apply (proj1 (fetchExplanation_returns_string "juju" Sample.world
                  ltac:(discriminate))).
  repeat split; try reflexivity;
    intros Hx; vm_compute in H; inversion H; subst row; discriminate Hx.
Defined.

(** X1. Queries that differ only in letter case and in surrounding
    whitespace get the same answer, in the why mode as in the lookup:
    the calls made and the result depend on the query only through its
    normalized form. *)
Theorem fetchExplanation_normalized
  (q q' : string) (w : World) (Hsame : Spec.normalize q = Spec.normalize q') :
  Explain.fetchExplanation q w = Explain.fetchExplanation q' w.
Proof.
  rewrite !normalize_code in Hsame.
  unfold Explain.fetchExplanation, Explain.rowMatches.
  now rewrite Hsame.
Qed.

Lemma fetchExplanation_normalized_witness :
  Explain.fetchExplanation "  mAAs " Sample.world
  = Explain.fetchExplanation "MAAS" Sample.world.
Proof.
  apply (fetchExplanation_normalized "  mAAs " "MAAS" Sample.world).
  reflexivity.
Defined.

(** X2. A run of [fetchExplanation] makes its calls in one order:
    it authenticates, loads the document and reads one sheet, [Why]
    followed by one draw of [Math.random] when the normalized query is
    ["why"] and [Explain] otherwise.  The run stops at the first call
    that the backend rejects, or before the read when the document has
    no such sheet: the calls made are a prefix of that sequence that
    starts with the authentication; they are the whole sequence when
    the backend answers the three requests; and when it does not, the
    run throws and draws no number.  No run writes a log line or reads
    the other sheet. *)
Theorem fetchExplanation_calls (q : string) (o : Outside) :
  (exists k,
      1 <= k
      /\ fst (Explain.fetchExplanation q o) = firstn k (Spec.fullRun q))
  /\ (authError (backend o) = None
      /\ loadInfoError (backend o) = None
      /\ Spec.sheetRead q (backend o) = SheetAnswers ->
      fst (Explain.fetchExplanation q o) = Spec.fullRun q)
  /\ (~ (authError (backend o) = None
         /\ loadInfoError (backend o) = None
         /\ Spec.sheetRead q (backend o) = SheetAnswers) ->
      (exists e, snd (Explain.fetchExplanation q o) = Throw e)
      /\ ~ In EvRandom (fst (Explain.fetchExplanation q o)))
  /\ (forall s, ~ In (EvLog s) (fst (Explain.fetchExplanation q o)))
  /\ (forall title,
         In (EvGetRows title) (fst (Explain.fetchExplanation q o)) ->
         title = if String.eqb (Spec.normalize q) "why" then "Why" else "Explain").
Proof.
  unfold Spec.fullRun, Spec.sheetRead.
  rewrite fetchExplanation_outside, normalize_code.
  destruct (authError (backend o)) as [err|].
  { split; [exists 1; split; [lia | now destruct (String.eqb _ "why")]|].
    split; [intros [H _]; discriminate|].
    split; [intros _; split; [eexists; reflexivity
                             | intros [H | []]; discriminate]|].
    split; [intros s [H | []]; discriminate|].
    intros title [H | []]; discriminate. }
  destruct (loadInfoError (backend o)) as [err|].
  { split; [exists 2; split; [lia | now destruct (String.eqb _ "why")]|].
    split; [intros [_ [H _]]; discriminate|].
    split; [intros _; split; [eexists; reflexivity
                             | intros [H | [H | []]]; discriminate]|].
    split; [intros s [H | [H | []]]; discriminate|].
    intros title [H | [H | []]]; discriminate. }
  destruct (String.eqb (trim (toLowerCase q)) "why").
  - destruct (whyState (backend o)) as [|err|].
    + split; [exists 2; split; [lia | reflexivity]|].
      split; [intros [_ [_ H]]; discriminate|].
      split; [intros _; split; [eexists; reflexivity
                               | intros [H | [H | []]]; discriminate]|].
      split; [intros s [H | [H | []]]; discriminate|].
      intros title [H | [H | []]]; discriminate.
    + split; [exists 3; split; [lia | reflexivity]|].
      split; [intros [_ [_ H]]; discriminate|].
      split; [intros _; split; [eexists; reflexivity
                               | intros [H | [H | [H | []]]]; discriminate]|].
      split; [intros s [H | [H | [H | []]]]; discriminate|].
      intros title [H | [H | [H | []]]]; try discriminate. now inversion H.
    + split; [exists 4; split; [lia | reflexivity]|].
      split; [reflexivity|].
      split; [intros H; exfalso; apply H; repeat split|].
      split; [intros s [H | [H | [H | [H | []]]]]; discriminate|].
      intros title [H | [H | [H | [H | []]]]]; try discriminate. now inversion H.
  - destruct (explainState (backend o)) as [|err|].
    + split; [exists 2; split; [lia | reflexivity]|].
      split; [intros [_ [_ H]]; discriminate|].
      split; [intros _; split; [eexists; reflexivity
                               | intros [H | [H | []]]; discriminate]|].
      split; [intros s [H | [H | []]]; discriminate|].
      intros title [H | [H | []]]; discriminate.
    + split; [exists 3; split; [lia | reflexivity]|].
      split; [reflexivity|].
      split; [intros _; split; [eexists; reflexivity
                               | intros [H | [H | [H | []]]]; discriminate]|].
      split; [intros s [H | [H | [H | []]]]; discriminate|].
      intros title [H | [H | [H | []]]]; try discriminate. now inversion H.
    + split; [exists 3; split; [lia | reflexivity]|].
      split; [reflexivity|].
      split; [intros H; exfalso; apply H; repeat split|].
      split; [intros s [H | [H | [H | []]]]; discriminate|].
      intros title [H | [H | [H | []]]]; try discriminate. now inversion H.
Qed.

Lemma fetchExplanation_calls_witness :
  (exists e, snd (Explain.fetchExplanation "maas" Sample.rejectedLogin) = Throw e)
  /\ ~ In EvRandom (fst (Explain.fetchExplanation "maas" Sample.rejectedLogin)).
Proof.
  apply (proj1 (proj2 (proj2 (fetchExplanation_calls "maas" Sample.rejectedLogin)))).
  intros [H _]. discriminate H.
Defined.

Section Consecutive.

Local Open Scope Z_scope.

(** In rows numbered consecutively from [base], the row with index [i]
    is the one at position [i - base]. *)
Lemma find_consecutive (rows : list WhyRow) (base i : Z) :
  (forall k row, nth_error rows k = Some row -> rowIndex row = base + Z.of_nat k) ->
  find (Explain.sameIndex (Some i)) rows
  = if (base <=? i) && (i <? base + Z.of_nat (List.length rows))
    then nth_error rows (Z.to_nat (i - base))
    else None.
Proof.
  revert base. induction rows as [|row rows IH]; intros base Hrows.
  - simpl. destruct ((base <=? i) && (i <? base + 0)) eqn:E; [|reflexivity].
    apply andb_true_iff in E. destruct E as [E1 E2].
    apply Z.leb_le in E1. apply Z.ltb_lt in E2. lia.
  - cbn [find Explain.sameIndex].
    pose proof (Hrows 0%nat row eq_refl) as H0. simpl in H0.
    destruct (Z.eqb (rowIndex row) i) eqn:E.
    + apply Z.eqb_eq in E.
      replace (i - base) with 0 by lia.
      replace ((base <=? i) && (i <? base + Z.of_nat (List.length (row :: rows))))
        with true; [reflexivity|].
      symmetry. apply andb_true_iff. split; [apply Z.leb_le | apply Z.ltb_lt];
        cbn [List.length]; lia.
    + apply Z.eqb_neq in E. rewrite (IH (base + 1)).
      * cbn [List.length].
        destruct ((base + 1 <=? i) && (i <? base + 1 + Z.of_nat (List.length rows)))
          eqn:E1.
        -- apply andb_true_iff in E1. destruct E1 as [E1 E2].
           apply Z.leb_le in E1. apply Z.ltb_lt in E2.
           replace ((base <=? i) && (i <? base + Z.of_nat (S (List.length rows))))
             with true
             by (symmetry; apply andb_true_iff;
                 split; [apply Z.leb_le | apply Z.ltb_lt]; lia).
           replace (Z.to_nat (i - base)) with (S (Z.to_nat (i - (base + 1)))) by lia.
           reflexivity.
        -- replace ((base <=? i) && (i <? base + Z.of_nat (S (List.length rows))))
             with false; [reflexivity|].
           symmetry. apply andb_false_iff. apply andb_false_iff in E1.
           destruct E1 as [E1 | E1].
           ++ left. apply Z.leb_gt in E1. apply Z.leb_gt. lia.
           ++ right. apply Z.ltb_ge in E1. apply Z.ltb_ge. lia.
      * intros k r Hk. rewrite (Hrows (S k) r Hk). lia.
Qed.

End Consecutive.

(** X3. In the why mode, when the fetched rows are numbered
    consecutively from [base], the call returns the [why] cell of the
    row at position [i - base] when the drawn index [i] lies in
    [base .. base + rowCount - 1], and fails with the [TypeError] for
    every other draw. *)
Theorem why_mode_consecutive_rows
  (q : string) (w : World) (base i : Z)
  (Hq : Spec.normalize q = "why")
  (Hrows : forall k row,
      nth_error (whySheet w) k = Some row ->
      rowIndex row = (base + Z.of_nat k)%Z)
  (Hdraw : Explain.randomIndex (mathRandom w) (List.length (whySheet w)) = Some i) :
  ((base <= i < base + Z.of_nat (List.length (whySheet w)))%Z ->
   exists row,
     nth_error (whySheet w) (Z.to_nat (i - base)) = Some row
     /\ snd (Explain.fetchExplanation q w) = Ok (why row))
  /\ ((i < base \/ base + Z.of_nat (List.length (whySheet w)) <= i)%Z ->
      snd (Explain.fetchExplanation q w) = Throw (Explain.notAString "why")).
Proof.
  rewrite normalize_code in Hq.
  rewrite fetchExplanation_why by (rewrite Hq; reflexivity).
  cbn [snd]. rewrite Hdraw.
  rewrite (find_consecutive (whySheet w) base i Hrows).
  split; intros Hi.
  - replace ((base <=? i)%Z && (i <? base + Z.of_nat (List.length (whySheet w)))%Z)
      with true
      by (symmetry; apply andb_true_iff;
          split; [apply Z.leb_le | apply Z.ltb_lt]; lia).
    destruct (nth_error (whySheet w) (Z.to_nat (i - base))) as [row|] eqn:E.
    + exists row. split; reflexivity.
    + exfalso. apply nth_error_None in E. lia.
  - replace ((base <=? i)%Z && (i <? base + Z.of_nat (List.length (whySheet w)))%Z)
      with false; [reflexivity|].
    symmetry. apply andb_false_iff.
    destruct Hi as [Hi | Hi]; [left; apply Z.leb_gt | right; apply Z.ltb_ge]; lia.
Qed.

Lemma why_mode_consecutive_rows_witness :
  exists row,
    nth_error (whySheet Sample.jujuWorld2) (Z.to_nat (2 - 2)) = Some row
    /\ snd (Explain.fetchExplanation "why" Sample.jujuWorld2) = Ok (why row).
Proof.
  apply (proj1 (why_mode_consecutive_rows "why" Sample.jujuWorld2 2 2 eq_refl
                  ltac:(intros [|[|[|k]]] row H; simpl in H;
                        try discriminate; inversion H; reflexivity)
                  ltac:(vm_compute; reflexivity))).
  simpl. lia.
Defined.

(* ===================================================================== *)
(** ** More on the HTTP handlers *)
(* ===================================================================== *)

Section Handlers.

(** The meet handler once the token has been accepted, for a text that
    is a string or absent. *)
Lemma Meet_post_accepted (secret txt : value) (body : Body) (o : Outside) :
  token body = secret ->
  text body = txt ->
  Meet.post secret body o
  = if falsy txt || String.eqb (trim (orEmpty txt)) "help"
    then ([], Ok (mkResponse 200
                    (Json [("response_type", VStr "in_channel");
                           ("icon_url", VStr Meet.iconUrl);
                           ("text", VStr Meet.helpText)])))
    else ([EvLog ("Meet participants: " ++ orEmpty txt)],
          Ok (mkResponse 200
                (Json [("response_type", VStr "in_channel");
                       ("icon_url", VStr Meet.iconUrl);
                       ("text",
                        VStr ("Your Meet is ready: https://g.co/meet/"
                              ++ Meet.meetCode (orEmpty txt)
                              ++ " " ++ orEmpty txt))]))).
Proof.
  intros Htok Htxt. unfold Meet.post, bind, lift.
  rewrite Htok, looseEq_refl, Htxt. cbn [negb].
  destruct txt as [|[|c t]]; try reflexivity.
  cbn [isTruthy falsy truthy negb orb orEmpty].
  destruct (String.eqb (trim (String c t)) "help"); reflexivity.
Qed.

(** The meet handler never answers 401 once the token has been
    accepted, whatever the text is. *)
Lemma Meet_post_not_rejected (secret : value) (body : Body) (o : Outside) :
  token body = secret ->
  forall resp, snd (Meet.post secret body o) = Ok resp -> status resp = 200.
Proof.
  intros Htok resp. unfold Meet.post, bind, lift.
  rewrite Htok, looseEq_refl. cbn [negb].
  destruct (isTruthy (text body)).
  - destruct (text body) as [[|t]| | | | |]; try (simpl; discriminate).
    destruct (negb (String.eqb (trim t) "help")); simpl;
      intros H; inversion H; reflexivity.
  - simpl. intros H. inversion H. reflexivity.
Qed.


(** The explain handler on a text that is empty, absent or a help word. *)
Lemma Explain_post_usage (secret txt : value) (body : Body) (o : Outside) :
  token body = secret ->
  text body = txt ->
  falsy txt = true \/ matchWhole true Explain.helpPattern (trim (orEmpty txt)) = true ->
  Explain.post secret body o
  = ([], Ok (mkResponse 200
               (Json [("response_type", VStr "ephemeral");
                      ("text", VStr Explain.usage)]))).
Proof.
  intros Htok Htext H. unfold Explain.post, bind, lift.
  rewrite Htok, looseEq_refl, Htext. cbn [negb isTruthy].
  destruct txt as [|[|c t]]; try reflexivity.
  destruct H as [H | H]; [discriminate|].
  cbn [truthy negb orEmpty] in *. now rewrite H.
Qed.

End Handlers.







(** X11. When [MATTERMOST_TOKEN_CMD_MEET] is missing from the
    environment (unset or empty), the meet script reports it on the
    console and still registers its handlers, and a request that carries
    the same missing token (no token field for an unset variable) is
    accepted: it is never answered 401, and when its text is a string
    or absent it is answered with status 200. *)
Theorem missing_meet_token_accepts_tokenless
  (env : Env) (body : Body) (w : World)
  (Hmissing : falsy (env "MATTERMOST_TOKEN_CMD_MEET") = true)
  (Htoken : token body = env "MATTERMOST_TOKEN_CMD_MEET") :
  Meet.startup env
  = Registered ["Missing MATTERMOST_TOKEN_CMD_MEET in environment"]
               ["respond meet"; "POST /hubot/meet"]
  /\ (forall resp,
         snd (Meet.post (env "MATTERMOST_TOKEN_CMD_MEET") body w) = Ok resp ->
         status resp = 200)
  /\ (forall txt : value,
         text body = txt ->
         exists resp,
           snd (Meet.post (env "MATTERMOST_TOKEN_CMD_MEET") body w) = Ok resp
           /\ status resp = 200).
Proof.
  split; [|split].
  - unfold Meet.startup. now rewrite Hmissing.
  - now apply Meet_post_not_rejected.
  - intros txt Htxt. rewrite (Meet_post_accepted _ txt body w Htoken Htxt).
    destruct (falsy txt || String.eqb (trim (orEmpty txt)) "help");
      eexists; split; reflexivity.
Qed.

Lemma missing_meet_token_accepts_tokenless_witness :
  Meet.startup Sample.envWithoutMeetToken
  = Registered ["Missing MATTERMOST_TOKEN_CMD_MEET in environment"]
               ["respond meet"; "POST /hubot/meet"]
  /\ exists resp,
       snd (Meet.post (Sample.envWithoutMeetToken "MATTERMOST_TOKEN_CMD_MEET")
              (mkBody VUndef (VStr "@a @b")) Sample.world) = Ok resp
       /\ status resp = 200.
Proof.
  pose proof (missing_meet_token_accepts_tokenless
                Sample.envWithoutMeetToken (mkBody VUndef (VStr "@a @b"))
                Sample.world eq_refl eq_refl) as [Hstartup [_ Hpost]].
  split; [exact Hstartup | exact (Hpost (VStr "@a @b") eq_refl)].
Defined.

(* ===================================================================== *)
(** ** More on the meet link *)
(* ===================================================================== *)

Section MeetCode.

Lemma string_length_chars (s : string) :
  String.length s = List.length (list_ascii_of_string s).
Proof. induction s as [|c t IH]; simpl; [reflexivity | now rewrite IH]. Qed.

Lemma meetCode_chars (s : string) :
  list_ascii_of_string (Meet.meetCode s)
  = firstn 59
      (map (fun c => if Ascii.eqb c " " then "-"%char else c)
         (filter (fun c => negb (Meet.isAt c)) (list_ascii_of_string s))).
Proof.
  unfold Meet.meetCode.
  now rewrite slice0_firstn, replaceAll_map, removeAll_filter.
Qed.

Lemma In_firstn_In {A} (n : nat) (l : list A) (x : A) :
  In x (firstn n l) -> In x l.
Proof.
  intros H. rewrite <- (firstn_skipn n l). apply in_or_app. now left.
Qed.

Lemma meetCode_no_at (s : string) :
  ~ In "@"%char (list_ascii_of_string (Meet.meetCode s)).
Proof.
  rewrite meetCode_chars. intros H. apply In_firstn_In in H.
  apply in_map_iff in H. destruct H as [c [Hc Hin]].
  apply filter_In in Hin. destruct Hin as [_ Hat].
  unfold Meet.isAt in Hat.
  destruct (Ascii.eqb c " ") eqn:E; [discriminate|].
  subst c. discriminate.
Qed.

Lemma meetCode_no_space (s : string) :
  ~ In " "%char (list_ascii_of_string (Meet.meetCode s)).
Proof.
  rewrite meetCode_chars. intros H. apply In_firstn_In in H.
  apply in_map_iff in H. destruct H as [c [Hc _]].
  destruct (Ascii.eqb c " ") eqn:E; [discriminate|].
  subst c. discriminate.
Qed.

Lemma removeAll_id (cls : ascii -> bool) (s : string) :
  (forall c, In c (list_ascii_of_string s) -> cls c = false) ->
  removeAll cls s = s.
Proof.
  induction s as [|c t IH]; simpl; intros H; [reflexivity|].
  rewrite (H c (or_introl eq_refl)). rewrite IH; [reflexivity|].
  intros d Hd. apply H. now right.
Qed.

Lemma replaceAll_id (a b : ascii) (s : string) :
  ~ In a (list_ascii_of_string s) -> replaceAll a b s = s.
Proof.
  induction s as [|c t IH]; simpl; intros H; [reflexivity|].
  destruct (Ascii.eqb c a) eqn:E.
  - apply Ascii.eqb_eq in E. exfalso. apply H. now left.
  - rewrite IH; [reflexivity|]. intros Hin. apply H. now right.
Qed.

Lemma slice0_id (n : nat) (s : string) :
  String.length s <= n -> slice0 n s = s.
Proof.
  revert s. induction n as [|n IH]; intros [|c t]; simpl; intros H;
    try reflexivity; try lia.
  rewrite IH; [reflexivity | lia].
Qed.

End MeetCode.

(** X12. The code of a meet link never contains ['@'] or a space, and
    its length is the number of characters of the participants text
    other than ['@'], capped at 59. *)
Theorem meetCode_clean (s : string) :
  ~ In "@"%char (list_ascii_of_string (Meet.meetCode s))
  /\ ~ In " "%char (list_ascii_of_string (Meet.meetCode s))
  /\ String.length (Meet.meetCode s)
     = Nat.min 59
         (List.length
            (filter (fun c => negb (Ascii.eqb c "@")) (list_ascii_of_string s))).
Proof.
  split; [apply meetCode_no_at|]. split; [apply meetCode_no_space|].
  rewrite string_length_chars, meetCode_chars, length_firstn, length_map.
  reflexivity.
Qed.

(** X13. The code leaves a participants text unchanged exactly when the
    text has no ['@'], no space and at most 59 characters; hence
    computing the code of a code changes nothing. *)
Theorem meetCode_fixed_points (s : string) :
  (Meet.meetCode s = s
   <-> ~ In "@"%char (list_ascii_of_string s)
       /\ ~ In " "%char (list_ascii_of_string s)
       /\ String.length s <= 59)
  /\ Meet.meetCode (Meet.meetCode s) = Meet.meetCode s.
Proof.
  assert (Hfix : forall t,
             ~ In "@"%char (list_ascii_of_string t) ->
             ~ In " "%char (list_ascii_of_string t) ->
             String.length t <= 59 ->
             Meet.meetCode t = t).
  { intros t Hat Hsp Hlen. unfold Meet.meetCode.
    rewrite removeAll_id.
    - rewrite (replaceAll_id " " "-" t Hsp). now apply slice0_id.
    - intros c Hc. unfold Meet.isAt.
      destruct (Ascii.eqb c "@") eqn:E; [|reflexivity].
      apply Ascii.eqb_eq in E. subst c. contradiction. }
  split; [split|].
  - intros H.
    pose proof (meetCode_no_at s) as Hat.
    pose proof (meetCode_no_space s) as Hsp.
    pose proof (slice0_length 59
                  (replaceAll " " "-" (removeAll Meet.isAt s))) as Hlen.
    fold (Meet.meetCode s) in Hlen. rewrite H in Hat, Hsp, Hlen. tauto.
  - intros [Hat [Hsp Hlen]]. now apply Hfix.
  - apply Hfix; [apply meetCode_no_at | apply meetCode_no_space |].
    apply slice0_length.
Qed.

(* ===================================================================== *)
(** ** More on the alias tokens *)
(* ===================================================================== *)

Section AliasTokens.

Lemma split_some (sep : ascii) (s : string) :
  exists tok toks, split sep s = tok :: toks.
Proof.
  induction s as [|c t [tok [toks IH]]]; simpl; [eauto|].
  destruct (Ascii.eqb c sep); [eauto|]. rewrite IH. eauto.
Qed.

Lemma whitespace_not_comma (c : ascii) :
  isWhiteSpace c = true -> Ascii.eqb c "," = false.
Proof.
  destruct (Ascii.eqb c ",") eqn:E; [|reflexivity].
  apply Ascii.eqb_eq in E. subst c. discriminate.
Qed.

Lemma toLowerChar_comma (c : ascii) :
  Ascii.eqb (toLowerChar c) "," = Ascii.eqb c ",".
Proof. destruct c as [[|] [|] [|] [|] [|] [|] [|] [|]]; vm_compute; reflexivity. Qed.

Lemma toLowerChar_idem (c : ascii) : toLowerChar (toLowerChar c) = toLowerChar c.
Proof. destruct c as [[|] [|] [|] [|] [|] [|] [|] [|]]; vm_compute; reflexivity. Qed.

Lemma toLowerCase_idem (s : string) : toLowerCase (toLowerCase s) = toLowerCase s.
Proof.
  induction s as [|c t IH]; simpl; [reflexivity|].
  now rewrite toLowerChar_idem, IH.
Qed.

(** Lower-casing the field and splitting it can be done in either order. *)
Lemma split_toLowerCase (s : string) :
  split "," (toLowerCase s) = map toLowerCase (split "," s).
Proof.
  induction s as [|c t IH]; simpl; [reflexivity|].
  rewrite toLowerChar_comma, IH.
  destruct (Ascii.eqb c ","); [reflexivity|].
  destruct (split_some "," t) as [tok [toks ->]]. reflexivity.
Qed.

Lemma trim_comm (s : string) : trimEnd (trimStart s) = trimStart (trimEnd s).
Proof.
  induction s as [|c t IH]; [reflexivity|].
  destruct (isWhiteSpace c) eqn:E.
  - rewrite trimEnd_cons. simpl trimStart at 1. rewrite E, IH.
    destruct (trimEnd t); simpl; rewrite ?E; reflexivity.
  - assert (H : trimStart (String c t) = String c t)
      by (simpl; now rewrite E).
    rewrite H. symmetry. now apply trimStart_trimEnd.
Qed.

(** Leading whitespace of the field only reaches the first token. *)
Lemma split_trimStart (s : string) :
  map trim (split "," (trimStart s)) = map trim (split "," s).
Proof.
  induction s as [|c t IH]; [reflexivity|].
  simpl trimStart. destruct (isWhiteSpace c) eqn:E; [|reflexivity].
  rewrite IH. simpl split. rewrite (whitespace_not_comma c E).
  destruct (split_some "," t) as [tok [toks ->]].
  simpl map. f_equal. unfold trim. simpl. now rewrite E.
Qed.

Lemma split_cons (sep c : ascii) (t : string) :
  split sep (String c t)
  = if Ascii.eqb c sep then EmptyString :: split sep t
    else match split sep t with
         | [] => [String c EmptyString]
         | tok :: toks => String c tok :: toks
         end.
Proof. reflexivity. Qed.

(** Trailing whitespace of the field only reaches the last token. *)
Lemma split_trimEnd (s : string) :
  map trimEnd (split "," (trimEnd s)) = map trimEnd (split "," s).
Proof.
  induction s as [|c t IH]; [reflexivity|].
  rewrite trimEnd_cons, (split_cons "," c t).
  destruct (split_some "," t) as [tok [toks Ht]].
  destruct (trimEnd t) as [|a u] eqn:Et.
  - rewrite Ht in IH. simpl in IH. inversion IH as [[Htok Htoks]].
    symmetry in Htoks. apply map_eq_nil in Htoks. subst toks.
    rewrite Ht.
    destruct (isWhiteSpace c) eqn:E.
    + rewrite (whitespace_not_comma c E).
      simpl. rewrite <- Htok, E. reflexivity.
    + rewrite (split_cons "," c EmptyString).
      destruct (Ascii.eqb c ",") eqn:Ec.
      * simpl. now rewrite <- Htok.
      * simpl. rewrite <- Htok, E. reflexivity.
  - rewrite (split_cons "," c (String a u)).
    destruct (Ascii.eqb c ",") eqn:Ec.
    + cbn [map]. now rewrite IH.
    + destruct (split_some "," (String a u)) as [tok' [toks' Ht']].
      rewrite Ht in *. rewrite Ht' in *.
      cbn [map] in *. inversion IH as [[Htok Htoks]].
      rewrite !trimEnd_cons, Htok. reflexivity.
Qed.

Lemma map_trim_split_trim (s : string) :
  map trim (split "," (trim s)) = map trim (split "," s).
Proof.
  rewrite <- (split_trimStart s).
  assert (Htrim : forall l, map trim l = map trimStart (map trimEnd l)).
  { intros l. rewrite map_map. apply map_ext. intros x. apply trim_comm. }
  rewrite (Htrim (split "," (trim s))), (Htrim (split "," (trimStart s))).
  unfold trim at 1. now rewrite split_trimEnd.
Qed.

(** The tokens are the normalized pieces of the field as it is stored. *)
Lemma aliasTokens_raw (row : Row) :
  Spec.aliasTokens row
  = map Spec.normalize (split "," (orEmpty (Alias row))).
Proof.
  unfold Spec.aliasTokens.
  assert (Hnorm : forall l, map Spec.normalize l = map toLowerCase (map trim l)).
  { intros l. now rewrite map_map. }
  rewrite normalize_code, !Hnorm, map_trim_split_trim, split_toLowerCase.
  rewrite !map_map. apply map_ext. intros x.
  rewrite <- normalize_code. unfold Spec.normalize. apply toLowerCase_idem.
Qed.

End AliasTokens.

(** X14. The keywords a query is compared with are the comma-separated
    pieces of the [Alias] cell as it is stored, each trimmed and
    lower-cased: normalizing the whole cell first changes nothing.  So
    a row is selected by the search exactly when its normalized
    [Explain] cell equals the normalized query, or the normalized query
    is not empty and equals one of these pieces after normalization. *)
Theorem rowMatches_alias_pieces (q : string) (row : Row) :
  map (fun e => toLowerCase (trim e))
    (split "," (trim (toLowerCase (orEmpty (Alias row)))))
  = map Spec.normalize (split "," (orEmpty (Alias row)))
  /\ (Explain.rowMatches q row = true
      <-> Spec.normalize (orEmpty (Explain row)) = Spec.normalize q
          \/ (Spec.normalize q <> EmptyString
              /\ In (Spec.normalize q)
                   (map Spec.normalize (split "," (orEmpty (Alias row)))))).
Proof.
  split.
  - rewrite <- aliasTokens_raw. unfold Spec.aliasTokens.
    now rewrite normalize_code.
  - rewrite rowMatches_AnswersNonBlank. unfold Spec.AnswersNonBlank.
    now rewrite aliasTokens_raw.
Qed.

(* ===================================================================== *)
(** ** The chat responder *)
(* ===================================================================== *)

Lemma HelpWord_not_why (q : string) :
  Spec.HelpWord (trim q) -> Spec.normalize q <> "why".
Proof.
  intros [n [t [Hq Ht]]]. unfold Spec.normalize. rewrite Hq.
  destruct n as [|n]; simpl.
  - destruct Ht as [-> | ->]; discriminate.
  - change (toLowerChar "-") with "-"%char. discriminate.
Qed.

(** X15. The help shortcut exists only on the HTTP path.  For a text
    that is a help word, the chat responder still authenticates, loads
    the document and searches the sheet [Explain] for the word, and
    sends what the search gives, while the HTTP handler answers the
    same text with the usage message and calls nothing. *)
Theorem chat_explain_has_no_help_shortcut
  (q : string) (w : World) (Hhelp : Spec.HelpWord (trim q)) :
  Explain.respond q w
  = ([EvAuth; EvLoadInfo; EvGetRows "Explain"],
     match find (Explain.rowMatches q) (explainSheet w) with
     | None => Ok (VStr Explain.usage)
     | Some row =>
         Explain.rbind (Explain.formatRowToMDTable row) (fun s => Ok (VStr s))
     end)
  /\ forall secret,
       Explain.post secret (mkBody secret (VStr q)) w
       = ([], Ok (mkResponse 200
                    (Json [("response_type", VStr "ephemeral");
                           ("text", VStr Explain.usage)]))).
Proof.
  split.
  - pose proof (HelpWord_not_why q Hhelp) as Hq. rewrite normalize_code in Hq.
    unfold Explain.respond.
    rewrite fetchExplanation_explain by (now apply String.eqb_neq).
    reflexivity.
  - intros secret.
    apply (Explain_post_usage secret (VStr q)); try reflexivity.
    right. now apply helpPattern_HelpWord.
Qed.

Lemma chat_explain_has_no_help_shortcut_witness :
  fst (Explain.respond "--Help" Sample.world)
  = [EvAuth; EvLoadInfo; EvGetRows "Explain"].
Proof.
  rewrite (proj1 (chat_explain_has_no_help_shortcut "--Help" Sample.world
                    ltac:(exists 2, "Help"; split;
                          [reflexivity | right; reflexivity]))).
  reflexivity.
Defined.
